(** * easier-web: the router's registration surface (router.go)

    A shallow embedding of [router.go]: router construction from
    [RouterOptions], the verb registrations, [Any], [WS], [Static],
    [StaticFS], [Use], the [Easy*] shortcuts and the start-up banner.

    Go passes a [*Router] around and mutates it in place, so routers live
    in a store and are addressed by pointers; an operation is a store
    transformer that either returns a value or panics.  The path-matching
    engine (httprouter) and the websocket server are external libraries:
    the first is represented by the ordered list of registrations it has
    accepted, the second by the two fields [WS] fills in. *)

From Stdlib Require Import ZArith String Ascii List Bool Lia.
From stdpp Require Import base list strings.

Local Open Scope string_scope.
Local Open Scope list_scope.

(** ** Outcomes of a Go call *)

(** A [*Router]: an index into the store of allocated routers. *)
Abbreviation ptr := nat (only parsing).

Inductive PanicValue :=
| NilDereference                      (* field access through a dangling or nil pointer *)
| RegistryPanic (msg : string).       (* raised inside the route registry *)

Inductive Result (A : Type) :=
| Ok (a : A)
| Panic (e : PanicValue).
Arguments Ok {A} a.
Arguments Panic {A} e.

(** ** State-and-panic monad

    A Go call runs against the heap and either returns or panics; what it
    wrote before panicking stays written. *)

Definition M (St A : Type) : Type := St -> St * Result A.

Definition ret {St A} (a : A) : M St A := fun s => (s, Ok a).

Definition bind {St A B} (m : M St A) (k : A -> M St B) : M St B :=
  fun s =>
    match m s with
    | (s', Ok a) => k a s'
    | (s', Panic e) => (s', Panic e)
    end.

Definition panic {St A} (e : PanicValue) : M St A := fun s => (s, Panic e).

Declare Scope go_scope.
Delimit Scope go_scope with go.
Notation "x <- m ;; k" := (bind m (fun x => k))
  (at level 100, m at next level, right associativity) : go_scope.
Notation "m ;; k" := (bind m (fun _ => k))
  (at level 100, right associativity) : go_scope.

(** ** HTTP verbs with a registration operation *)

Inductive Verb :=
| MethodGet | MethodHead | MethodOptions | MethodPost
| MethodPut | MethodPatch | MethodDelete.

Definition Verb_eqb (a b : Verb) : bool :=
  match a, b with
  | MethodGet, MethodGet | MethodHead, MethodHead
  | MethodOptions, MethodOptions | MethodPost, MethodPost
  | MethodPut, MethodPut | MethodPatch, MethodPatch
  | MethodDelete, MethodDelete => true
  | _, _ => false
  end.

Definition all_verbs : list Verb :=
  [MethodGet; MethodHead; MethodOptions; MethodPost;
   MethodPut; MethodPatch; MethodDelete].

Section EasierWeb.

(** Function values of the types [Handle], [ErrorHandle], [RequestHandle]
    and [ResponseHandle] are opaque to the router: it stores them and hands
    them on.  [Handle] and the three [*Fn] types stand for such function
    values; a hook that may be [nil] is an [option]. *)
Context {Handle ErrorFn RequestFn ResponseFn : Type}.
(** [any]-typed business handlers accepted by the [Easy*] operations. *)
Context {EasyHandle : Type}.
(** Implementations of [http.FileSystem] other than [http.Dir]. *)
Context {FS : Type}.
(** [*websocket.Config], [*http.Request] and non-nil [error] values. *)
Context {Config Request Err : Type}.

Definition ErrorHandle := option ErrorFn.
Definition RequestHandle := option RequestFn.
Definition ResponseHandle := option ResponseFn.

(** [http.FileSystem] values: [http.Dir(dir)] or any other implementation. *)
Inductive http_FileSystem :=
| http_Dir (dir : string)
| http_fs (impl : FS).

(** ** Option structs

    The hook fields of [RouterOptions] and [PluginOptions] bear the names
    of their types in Go; here they are [ErrorHandle_opt],
    [plugin_RequestHandle] and so on. *)

Record RouterOptions := {
  RootPath : string;
  MultipartFormMaxMemory : Z;          (* int64 *)
  ErrorHandle_opt : ErrorHandle;
  RequestHandle_opt : RequestHandle;
  ResponseHandle_opt : ResponseHandle;
  CloseConsolePrint : bool
}.

Record PluginOptions := {
  plugin_RequestHandle : RequestHandle;
  plugin_ResponseHandle : ResponseHandle
}.

(** ** The route registry *)

(** The closures the router passes to httprouter.  Both capture the router
    pointer [r] and the route's [handle]:
    - [handleFunc r handle] is
      [func(res, req, par) { r.handle(handle, res, req, par, nil) }];
    - [websocketFunc r handle] is
      [func(res, req, par) { websocket.Server{...}.ServeHTTP(res, req) }]. *)
Inductive httprouter_Handle :=
| handleFunc (r : ptr) (handle : Handle)
| websocketFunc (r : ptr) (handle : Handle).

(** One call on [*httprouter.Router]: a verb registration
    ([GET], [HEAD], ... of httprouter) or [ServeFiles]. *)
Inductive Registration :=
| Route (verb : Verb) (path : string) (f : httprouter_Handle)
| ServeFiles (path : string) (root : http_FileSystem).

(** ** The router *)

(** The [server] field ([http.Server]) is written by [Run] and [RunTLS]
    only and is left out of the registration state.  [router] is the
    registry created by [httprouter.New()] in [New]; it is never [nil]. *)
Record Router := {
  rootPath : string;
  multipartFormMaxMemory : Z;          (* int64 *)
  router : list Registration;          (* *httprouter.Router, in call order *)
  middlewares : list Handle;
  errorHandle : ErrorHandle;
  requestHandle : RequestHandle;
  responseHandle : ResponseHandle;
  closeConsolePrint : bool
}.

Definition set_rootPath (x : string) (rt : Router) : Router :=
  {| rootPath := x;
     multipartFormMaxMemory := multipartFormMaxMemory rt;
     router := router rt; middlewares := middlewares rt;
     errorHandle := errorHandle rt; requestHandle := requestHandle rt;
     responseHandle := responseHandle rt;
     closeConsolePrint := closeConsolePrint rt |}.

Definition set_multipartFormMaxMemory (x : Z) (rt : Router) : Router :=
  {| rootPath := rootPath rt;
     multipartFormMaxMemory := x;
     router := router rt; middlewares := middlewares rt;
     errorHandle := errorHandle rt; requestHandle := requestHandle rt;
     responseHandle := responseHandle rt;
     closeConsolePrint := closeConsolePrint rt |}.

Definition set_router (x : list Registration) (rt : Router) : Router :=
  {| rootPath := rootPath rt;
     multipartFormMaxMemory := multipartFormMaxMemory rt;
     router := x; middlewares := middlewares rt;
     errorHandle := errorHandle rt; requestHandle := requestHandle rt;
     responseHandle := responseHandle rt;
     closeConsolePrint := closeConsolePrint rt |}.

Definition set_middlewares (x : list Handle) (rt : Router) : Router :=
  {| rootPath := rootPath rt;
     multipartFormMaxMemory := multipartFormMaxMemory rt;
     router := router rt; middlewares := x;
     errorHandle := errorHandle rt; requestHandle := requestHandle rt;
     responseHandle := responseHandle rt;
     closeConsolePrint := closeConsolePrint rt |}.

Definition set_errorHandle (x : ErrorHandle) (rt : Router) : Router :=
  {| rootPath := rootPath rt;
     multipartFormMaxMemory := multipartFormMaxMemory rt;
     router := router rt; middlewares := middlewares rt;
     errorHandle := x; requestHandle := requestHandle rt;
     responseHandle := responseHandle rt;
     closeConsolePrint := closeConsolePrint rt |}.

Definition set_requestHandle (x : RequestHandle) (rt : Router) : Router :=
  {| rootPath := rootPath rt;
     multipartFormMaxMemory := multipartFormMaxMemory rt;
     router := router rt; middlewares := middlewares rt;
     errorHandle := errorHandle rt; requestHandle := x;
     responseHandle := responseHandle rt;
     closeConsolePrint := closeConsolePrint rt |}.

Definition set_responseHandle (x : ResponseHandle) (rt : Router) : Router :=
  {| rootPath := rootPath rt;
     multipartFormMaxMemory := multipartFormMaxMemory rt;
     router := router rt; middlewares := middlewares rt;
     errorHandle := errorHandle rt; requestHandle := requestHandle rt;
     responseHandle := x;
     closeConsolePrint := closeConsolePrint rt |}.

Definition set_closeConsolePrint (x : bool) (rt : Router) : Router :=
  {| rootPath := rootPath rt;
     multipartFormMaxMemory := multipartFormMaxMemory rt;
     router := router rt; middlewares := middlewares rt;
     errorHandle := errorHandle rt; requestHandle := requestHandle rt;
     responseHandle := responseHandle rt;
     closeConsolePrint := x |}.

(** ** The store *)

Abbreviation Store := (list Router) (only parsing).

(** [&Router{...}]: a fresh cell at the end of the store. *)
Definition alloc (rt : Router) : M Store ptr :=
  fun s => (s ++ [rt], Ok (length s)).

(** Reading the fields of [*r]. *)
Definition load (r : ptr) : M Store Router :=
  fun s =>
    match s !! r with
    | Some rt => (s, Ok rt)
    | None => (s, Panic NilDereference)
    end.

(** Updating [*r] in place. *)
Definition modify (r : ptr) (f : Router -> Router) : M Store unit :=
  fun s =>
    match s !! r with
    | Some rt => (<[r := f rt]> s, Ok tt)
    | None => (s, Panic NilDereference)
    end.

(** ** What the router relies on from outside router.go *)

(** The default hooks are named functions of another file. *)
Variable defaultErrorHandle : ErrorFn.
Variable defaultRequestHandle : RequestFn.
Variable defaultResponseHandle : ResponseFn.

(** [r.buildHandle(easyHandle, opts)], defined in another file: it may read
    the router it is called on and yields a [Handle]. *)
Variable buildHandle : ptr -> Router -> EasyHandle -> list PluginOptions -> Handle.

(** The registry's own acceptance policy (httprouter panics on a path it
    rejects, such as a duplicate or a conflicting pattern): [None] accepts
    the call against the registrations made so far, [Some msg] panics. *)
Variable registry_check : list Registration -> Registration -> option string.

(** A call on [r.router]: checked by the registry, then recorded. *)
Definition router_call (r : ptr) (c : Registration) : M Store unit :=
  (rt <- load r ;;
   match registry_check (router rt) c with
   | Some msg => panic (RegistryPanic msg)
   | None => modify r (set_router (router rt ++ [c]))
   end)%go.

Definition router_GET r path f := router_call r (Route MethodGet path f).
Definition router_HEAD r path f := router_call r (Route MethodHead path f).
Definition router_OPTIONS r path f := router_call r (Route MethodOptions path f).
Definition router_POST r path f := router_call r (Route MethodPost path f).
Definition router_PUT r path f := router_call r (Route MethodPut path f).
Definition router_PATCH r path f := router_call r (Route MethodPatch path f).
Definition router_DELETE r path f := router_call r (Route MethodDelete path f).
Definition router_ServeFiles r path root := router_call r (ServeFiles path root).

(** ** Construction *)

(** The router literal [New] starts from. *)
Definition initial_router : Router :=
  {| rootPath := "";
     multipartFormMaxMemory := Z.shiftl 32 20;
     router := [];
     middlewares := [];
     errorHandle := Some defaultErrorHandle;
     requestHandle := Some defaultRequestHandle;
     responseHandle := Some defaultResponseHandle;
     closeConsolePrint := false |}.

(** One iteration of [for _, v := range opts]. *)
Definition apply_options (rt : Router) (v : RouterOptions) : Router :=
  let rt := if negb (String.eqb (RootPath v) "")
            then set_rootPath (RootPath v) rt else rt in
  let rt := if (0 <? MultipartFormMaxMemory v)%Z
            then set_multipartFormMaxMemory (MultipartFormMaxMemory v) rt else rt in
  let rt := match ErrorHandle_opt v with
            | Some f => set_errorHandle (Some f) rt | None => rt end in
  let rt := match RequestHandle_opt v with
            | Some f => set_requestHandle (Some f) rt | None => rt end in
  let rt := match ResponseHandle_opt v with
            | Some f => set_responseHandle (Some f) rt | None => rt end in
  set_closeConsolePrint (CloseConsolePrint v) rt.

Definition New (opts : list RouterOptions) : M Store ptr :=
  alloc (fold_left apply_options opts initial_router).

(** ** Registration operations *)

Definition GET (r : ptr) (path : string) (handle : Handle) : M Store ptr :=
  (rt <- load r ;;
   router_GET r (rootPath rt +:+ path) (handleFunc r handle) ;;
   ret r)%go.

Definition HEAD (r : ptr) (path : string) (handle : Handle) : M Store ptr :=
  (rt <- load r ;;
   router_HEAD r (rootPath rt +:+ path) (handleFunc r handle) ;;
   ret r)%go.

Definition OPTIONS (r : ptr) (path : string) (handle : Handle) : M Store ptr :=
  (rt <- load r ;;
   router_OPTIONS r (rootPath rt +:+ path) (handleFunc r handle) ;;
   ret r)%go.

Definition POST (r : ptr) (path : string) (handle : Handle) : M Store ptr :=
  (rt <- load r ;;
   router_POST r (rootPath rt +:+ path) (handleFunc r handle) ;;
   ret r)%go.

Definition PUT (r : ptr) (path : string) (handle : Handle) : M Store ptr :=
  (rt <- load r ;;
   router_PUT r (rootPath rt +:+ path) (handleFunc r handle) ;;
   ret r)%go.

Definition PATCH (r : ptr) (path : string) (handle : Handle) : M Store ptr :=
  (rt <- load r ;;
   router_PATCH r (rootPath rt +:+ path) (handleFunc r handle) ;;
   ret r)%go.

Definition DELETE (r : ptr) (path : string) (handle : Handle) : M Store ptr :=
  (rt <- load r ;;
   router_DELETE r (rootPath rt +:+ path) (handleFunc r handle) ;;
   ret r)%go.

Definition Any (r : ptr) (path : string) (handle : Handle) : M Store ptr :=
  (GET r path handle ;;
   HEAD r path handle ;;
   OPTIONS r path handle ;;
   POST r path handle ;;
   PUT r path handle ;;
   PATCH r path handle ;;
   DELETE r path handle ;;
   ret r)%go.

Definition WS (r : ptr) (path : string) (handle : Handle) : M Store ptr :=
  (rt <- load r ;;
   router_GET r (rootPath rt +:+ path) (websocketFunc r handle) ;;
   ret r)%go.

Definition StaticFS (r : ptr) (path : string) (fs : http_FileSystem) : M Store ptr :=
  (rt <- load r ;;
   router_ServeFiles r (rootPath rt +:+ path) fs ;;
   ret r)%go.

Definition Static (r : ptr) (path dir : string) : M Store ptr :=
  StaticFS r path (http_Dir dir).

Definition Use (r : ptr) (ms : list Handle) : M Store ptr :=
  (modify r (fun rt => set_middlewares (middlewares rt ++ ms) rt) ;;
   ret r)%go.

(** A chain [r.Use(...).Use(...) ...]. *)
Fixpoint Use_chain (r : ptr) (calls : list (list Handle)) : M Store ptr :=
  match calls with
  | [] => ret r
  | ms :: calls' => (r' <- Use r ms ;; Use_chain r' calls')%go
  end.

(** *** The easier-usage shortcuts *)

Definition EasyGET r path (easyHandle : EasyHandle) (opts : list PluginOptions) : M Store ptr :=
  (rt <- load r ;; GET r path (buildHandle r rt easyHandle opts))%go.

Definition EasyHEAD r path (easyHandle : EasyHandle) (opts : list PluginOptions) : M Store ptr :=
  (rt <- load r ;; HEAD r path (buildHandle r rt easyHandle opts))%go.

Definition EasyOPTIONS r path (easyHandle : EasyHandle) (opts : list PluginOptions) : M Store ptr :=
  (rt <- load r ;; OPTIONS r path (buildHandle r rt easyHandle opts))%go.

Definition EasyPOST r path (easyHandle : EasyHandle) (opts : list PluginOptions) : M Store ptr :=
  (rt <- load r ;; POST r path (buildHandle r rt easyHandle opts))%go.

Definition EasyPUT r path (easyHandle : EasyHandle) (opts : list PluginOptions) : M Store ptr :=
  (rt <- load r ;; PUT r path (buildHandle r rt easyHandle opts))%go.

Definition EasyPATCH r path (easyHandle : EasyHandle) (opts : list PluginOptions) : M Store ptr :=
  (rt <- load r ;; PATCH r path (buildHandle r rt easyHandle opts))%go.

Definition EasyDELETE r path (easyHandle : EasyHandle) (opts : list PluginOptions) : M Store ptr :=
  (rt <- load r ;; DELETE r path (buildHandle r rt easyHandle opts))%go.

Definition EasyAny r path (easyHandle : EasyHandle) (opts : list PluginOptions) : M Store ptr :=
  (rt <- load r ;; Any r path (buildHandle r rt easyHandle opts))%go.

(** ** Serving a registered route

    The bodies of the closures above, as far as router.go writes them. *)

(** A call [r.handle(handle, res, req, par, ws)]: the router it is made
    on, the route's handle, and whether [ws] is a connection ([true]) or
    [nil] ([false]).  [Router.handle] itself is defined in another file. *)
Record handle_call := {
  receiver : ptr;
  route_handle : Handle;
  over_socket : bool
}.

(** The two fields of [websocket.Server] that [WS] sets.  [Handler] is the
    closure [func(ws) { r.handle(handle, res, req, par, ws) }]; a [nil]
    [Handshake] is [None], and a handshake function answers [None] for the
    [nil] error. *)
Record websocket_Server := {
  Handler : handle_call;
  Handshake : option (Config -> Request -> option Err)
}.

(** The server value built inside the closure registered by [WS]. *)
Definition WS_server (r : ptr) (handle : Handle) : websocket_Server :=
  {| Handler := {| receiver := r; route_handle := handle; over_socket := true |};
     Handshake := Some (fun (config : Config) (req : Request) => None) |}.

(** The websocket library reads the opening handshake of a request before
    anything else: a request that is not a well-formed websocket upgrade is
    answered with an error status ([Some code], 400 or 405), a well-formed
    one passes ([None]).  This check belongs to the library. *)
Variable ReadHandshake : Request -> option nat.

(** What a request meets once the registry has picked a registration. *)
Inductive Served :=
| Pipeline (c : handle_call)           (* control enters [Router.handle] *)
| Refused (code : nat)                 (* not a websocket upgrade: no handshake, no handler *)
| Forbidden (e : Err)                  (* the websocket handshake function refused: 403 *)
| FileServer (root : http_FileSystem). (* the registry's own file server *)

(** [websocket.Server.ServeHTTP]: the opening handshake is read first and
    a malformed one ends the request; then a handshake function that
    returns an error ends the request with 403; otherwise the handler runs
    on the upgraded connection. *)
Definition websocket_ServeHTTP (srv : websocket_Server)
    (config : Config) (req : Request) : Served :=
  match ReadHandshake req with
  | Some code => Refused code
  | None =>
      match Handshake srv with
      | Some handshake =>
          match handshake config req with
          | Some e => Forbidden e
          | None => Pipeline (Handler srv)
          end
      | None => Pipeline (Handler srv)
      end
  end.

(** Running a registered closure on a request. *)
Definition apply_Handle (f : httprouter_Handle)
    (config : Config) (req : Request) : Served :=
  match f with
  | handleFunc r handle =>
      Pipeline {| receiver := r; route_handle := handle; over_socket := false |}
  | websocketFunc r handle =>
      websocket_ServeHTTP (WS_server r handle) config req
  end.

Definition serve (c : Registration) (config : Config) (req : Request) : Served :=
  match c with
  | Route _ _ f => apply_Handle f config req
  | ServeFiles _ root => FileServer root
  end.

(** The answer of a route's handshake function: [None] when it lets the
    request through or is not consulted (plain routes have no handshake
    step, and a request that is not a websocket upgrade never reaches
    it). *)
Definition handshake_decision (f : httprouter_Handle)
    (config : Config) (req : Request) : option Err :=
  match apply_Handle f config req with
  | Forbidden e => Some e
  | _ => None
  end.

(** The fields a request-time call reads through its receiver. *)
Definition request_middlewares (s : Store) (c : handle_call) : option (list Handle) :=
  middlewares <$> (s !! receiver c).

Definition request_errorHandle (s : Store) (c : handle_call) : option ErrorHandle :=
  errorHandle <$> (s !! receiver c).

(** A pattern without parameter (':') or catch-all ('*') segment. *)
Fixpoint static_path (p : string) : bool :=
  match p with
  | EmptyString => true
  | String c p' =>
      negb (Ascii.eqb c ":") && negb (Ascii.eqb c "*") && static_path p'
  end.

(** A registry of static routes: no pattern with a parameter or catch-all
    segment, and no served directory (which the registry keeps as a
    catch-all GET route). *)
Definition static_route (c : Registration) : bool :=
  match c with
  | Route _ p _ => static_path p
  | ServeFiles _ _ => false
  end.

Definition static_registry (reg : list Registration) : bool :=
  forallb static_route reg.

(** Lookup in a registry of static routes, where the registry answers by
    exact match: a static pattern matches the identical request path under
    its verb and no other.  It says nothing about registries that hold
    parameter or catch-all patterns or served directories; the properties
    below use it under [static_registry] only. *)
Definition matches_static (verb : Verb) (path : string) (c : Registration) : bool :=
  match c with
  | Route v p _ => Verb_eqb v verb && String.eqb p path
  | ServeFiles _ _ => false
  end.

Definition static_lookup (reg : list Registration) (verb : Verb) (path : string)
    : option httprouter_Handle :=
  match find (matches_static verb path) reg with
  | Some (Route _ _ f) => Some f
  | _ => None
  end.

(** ** Start-up banner *)

Definition banner : string :=
"  ______          _        __          __  _     
 |  ____|        (_)       \ \        / / | |    
 | |__   __ _ ___ _  ___ _ _\ \  /\  / /__| |__  
 |  __| / _` / __| |/ _ \ '__\ \/  \/ / _ \ '_ \ 
 | |___| (_| \__ \ |  __/ |   \  /\  /  __/ |_) |
 |______\__,_|___/_|\___|_|    \/  \/ \___|_.__/".

Definition ESC : string := String (ascii_of_nat 27) "".
Definition LF : string := String (ascii_of_nat 10) "".

(** The text [consoleStartPrint] writes to standard output. *)
Definition consoleStartPrint (rt : Router) (addr : string) : string :=
  if closeConsolePrint rt then ""
  else banner +:+ LF
       +:+ ESC +:+ "[1;32;40m"
       +:+ (" >>> http server runs on [" +:+ addr +:+ "] ")
       +:+ ESC +:+ "[0m" +:+ LF.

(** ** Registration operations as data *)

Definition verb_op (v : Verb) : ptr -> string -> Handle -> M Store ptr :=
  match v with
  | MethodGet => GET | MethodHead => HEAD | MethodOptions => OPTIONS
  | MethodPost => POST | MethodPut => PUT | MethodPatch => PATCH
  | MethodDelete => DELETE
  end.

Definition easy_verb_op (v : Verb)
    : ptr -> string -> EasyHandle -> list PluginOptions -> M Store ptr :=
  match v with
  | MethodGet => EasyGET | MethodHead => EasyHEAD | MethodOptions => EasyOPTIONS
  | MethodPost => EasyPOST | MethodPut => EasyPUT | MethodPatch => EasyPATCH
  | MethodDelete => EasyDELETE
  end.

(** One chainable call of the registration surface. *)
Inductive RegistrationOp :=
| op_verb (v : Verb) (path : string) (handle : Handle)
| op_Any (path : string) (handle : Handle)
| op_WS (path : string) (handle : Handle)
| op_Static (path dir : string)
| op_StaticFS (path : string) (fs : http_FileSystem)
| op_Use (ms : list Handle)
| op_Easy (v : Verb) (path : string) (easyHandle : EasyHandle) (opts : list PluginOptions)
| op_EasyAny (path : string) (easyHandle : EasyHandle) (opts : list PluginOptions).

Definition run_op (r : ptr) (op : RegistrationOp) : M Store ptr :=
  match op with
  | op_verb v path handle => verb_op v r path handle
  | op_Any path handle => Any r path handle
  | op_WS path handle => WS r path handle
  | op_Static path dir => Static r path dir
  | op_StaticFS path fs => StaticFS r path fs
  | op_Use ms => Use r ms
  | op_Easy v path easyHandle opts => easy_verb_op v r path easyHandle opts
  | op_EasyAny path easyHandle opts => EasyAny r path easyHandle opts
  end.

(** A chain [r.op1(...).op2(...) ...]: each call is made on the pointer the
    previous one returned. *)
Fixpoint run_chain (r : ptr) (ops : list RegistrationOp) : M Store ptr :=
  match ops with
  | [] => ret r
  | op :: ops' => (r' <- run_op r op ;; run_chain r' ops')%go
  end.

(** ** Specification vocabulary *)

(** [focus r m g]: on every store where [r] is allocated, [m] rewrites the
    cell of [r] alone, acting there as [g]. *)
Definition focus {A} (r : ptr) (m : M Store A) (g : M Router A) : Prop :=
  forall s rt, s !! r = Some rt -> m s = (<[r := fst (g rt)]> s, snd (g rt)).

(** A registry call seen from the router it is made on. *)
Definition call_effect (c : Registration) : M Router unit :=
  fun rt =>
    match registry_check (router rt) c with
    | Some msg => (rt, Panic (RegistryPanic msg))
    | None => (set_router (router rt ++ [c]) rt, Ok tt)
    end.

(** Registry calls made one after the other until the registry refuses
    one: the router reached and the refusal, if any. *)
Fixpoint register_all (rt : Router) (cs : list Registration) : Router * option string :=
  match cs with
  | [] => (rt, None)
  | c :: cs' =>
      match registry_check (router rt) c with
      | Some msg => (rt, Some msg)
      | None => register_all (set_router (router rt ++ [c]) rt) cs'
      end
  end.

Definition register_then_return (r : ptr) (cs : list Registration) : M Router ptr :=
  fun rt =>
    match register_all rt cs with
    | (rt', None) => (rt', Ok r)
    | (rt', Some msg) => (rt', Panic (RegistryPanic msg))
    end.

(** The registry calls an operation makes on router [r] in state [rt]. *)
Definition calls_of (r : ptr) (rt : Router) (op : RegistrationOp) : list Registration :=
  match op with
  | op_verb v path handle => [Route v (rootPath rt +:+ path) (handleFunc r handle)]
  | op_Any path handle =>
      map (fun v => Route v (rootPath rt +:+ path) (handleFunc r handle)) all_verbs
  | op_WS path handle => [Route MethodGet (rootPath rt +:+ path) (websocketFunc r handle)]
  | op_Static path dir => [ServeFiles (rootPath rt +:+ path) (http_Dir dir)]
  | op_StaticFS path fs => [ServeFiles (rootPath rt +:+ path) fs]
  | op_Use _ => []
  | op_Easy v path easyHandle opts =>
      [Route v (rootPath rt +:+ path) (handleFunc r (buildHandle r rt easyHandle opts))]
  | op_EasyAny path easyHandle opts =>
      map (fun v => Route v (rootPath rt +:+ path)
                      (handleFunc r (buildHandle r rt easyHandle opts))) all_verbs
  end.

(** An operation seen from the router it is called on. *)
Definition op_effect (r : ptr) (op : RegistrationOp) : M Router ptr :=
  fun rt =>
    match op with
    | op_Use ms => (set_middlewares (middlewares rt ++ ms) rt, Ok r)
    | _ => register_then_return r (calls_of r rt op) rt
    end.

(** A chain of operations seen from the router it starts on. *)
Fixpoint chain_effect (r : ptr) (ops : list RegistrationOp) : M Router ptr :=
  match ops with
  | [] => ret r
  | op :: ops' => (r' <- op_effect r op ;; chain_effect r' ops')%go
  end.

(** What registration never writes: every field but the registry and the
    middleware list. *)
Definition same_configuration (a b : Router) : Prop :=
  rootPath a = rootPath b /\
  multipartFormMaxMemory a = multipartFormMaxMemory b /\
  errorHandle a = errorHandle b /\
  requestHandle a = requestHandle b /\
  responseHandle a = responseHandle b /\
  closeConsolePrint a = closeConsolePrint b.

(** The router a registered closure calls back into. *)
Definition closure_receiver (f : httprouter_Handle) : ptr :=
  match f with
  | handleFunc r _ => r
  | websocketFunc r _ => r
  end.

Definition registered_on (r : ptr) (c : Registration) : Prop :=
  match c with
  | Route _ _ f => closure_receiver f = r
  | ServeFiles _ _ => True
  end.

(** [Any] as the specification words it: the handle registered
    individually under each of the seven verbs, one call after the other. *)
Definition register_under_each_verb (r : ptr) (path : string) (handle : Handle)
    : M Store ptr :=
  fold_right (fun v rest => (verb_op v r path handle ;; rest)%go) (ret r) all_verbs.

(** Option resolution as the specification words it: a field left unset
    inherits what was in force, a set field overrides it. *)
Definition override {A} (inherited : A) (field : option A) : A :=
  match field with
  | Some x => x
  | None => inherited
  end.

Definition resolve {A} (default : A) (fields : list (option A)) : A :=
  fold_left override fields default.

(** When a [RouterOptions] field counts as set. *)
Definition RootPath_set (v : RouterOptions) : option string :=
  if String.eqb (RootPath v) "" then None else Some (RootPath v).

Definition MultipartFormMaxMemory_set (v : RouterOptions) : option Z :=
  if (0 <? MultipartFormMaxMemory v)%Z then Some (MultipartFormMaxMemory v) else None.

(** The reading of "the handshake step is configurable": whatever
    accept/reject decision a caller has in mind, some [WS] registration
    installs a route whose handshake takes that decision. *)
Definition WS_handshake_configurable : Prop :=
  forall decision : Config -> Request -> option Err,
  exists (r : ptr) (path : string) (handle : Handle) (s s' : Store) (rt' : Router)
         (verb : Verb) (p : string) (f : httprouter_Handle),
    WS r path handle s = (s', Ok r) /\
    s' !! r = Some rt' /\
    last (router rt') = Some (Route verb p f) /\
    forall config req, handshake_decision f config req = decision config req.

(** ** Vocabulary of the further properties *)

(** The path a registry call is made with. *)
Definition registration_path (c : Registration) : string :=
  match c with
  | Route _ p _ => p
  | ServeFiles p _ => p
  end.

Definition under_root (root : string) (c : Registration) : bool :=
  String.prefix root (registration_path c).

(** No hook of the router is [nil]. *)
Definition hooks_installed (rt : Router) : Prop :=
  is_Some (errorHandle rt) /\ is_Some (requestHandle rt) /\
  is_Some (responseHandle rt).

(** The largest [int64]. *)
Definition max_int64 : Z := 2 ^ 63 - 1.

(** Registrations of a handle or a file system given as such: every
    operation but [Use] and the [Easy*] shortcuts. *)
Definition plain_registration (op : RegistrationOp) : bool :=
  match op with
  | op_verb _ _ _ | op_Any _ _ | op_WS _ _
  | op_Static _ _ | op_StaticFS _ _ => true
  | _ => false
  end.

(** An options value that sets every guarded field. *)
Definition sets_every_field (o : RouterOptions) : Prop :=
  RootPath o <> "" /\ (0 < MultipartFormMaxMemory o)%Z /\
  is_Some (ErrorHandle_opt o) /\ is_Some (RequestHandle_opt o) /\
  is_Some (ResponseHandle_opt o).

(** ** Registry policies used in the examples *)

(** A registry that takes every call. *)
Definition accept_all : list Registration -> Registration -> option string :=
  fun _ _ => None.

Definition same_key (c d : Registration) : bool :=
  match c, d with
  | Route v p _, Route v' p' _ => Verb_eqb v v' && String.eqb p p'
  | ServeFiles p _, ServeFiles p' _ => String.eqb p p'
  | _, _ => false
  end.

(** A registry that panics on a second registration of a (verb, path). *)
Definition reject_duplicates : list Registration -> Registration -> option string :=
  fun reg c =>
    if existsb (same_key c) reg
    then Some "a handle is already registered for this path"
    else None.

(** * Properties *)

(** ** The monad on one cell of the store *)

Lemma focus_ret {A} (r : ptr) (a : A) : focus r (ret a) (ret a).
Proof.
  intros s rt Hr. unfold ret; simpl.
  by rewrite list_insert_id.
Qed.

Lemma focus_bind {A B} (r : ptr) (m : M Store A) (g : M Router A)
    (k : A -> M Store B) (h : A -> M Router B) :
  focus r m g -> (forall a, focus r (k a) (h a)) -> focus r (bind m k) (bind g h).
Proof.
  intros Hm Hk s rt Hr. unfold bind.
  rewrite (Hm s rt Hr).
  destruct (g rt) as [rt1 [a | e]]; simpl; [| done].
  assert (Hlt : r < length s) by (eapply lookup_lt_Some; eauto).
  rewrite (Hk a (<[r := rt1]> s) rt1); [| by apply list_lookup_insert_eq].
  by rewrite list_insert_insert_eq.
Qed.

Lemma focus_ext {A} (r : ptr) (m : M Store A) (g g' : M Router A) :
  (forall rt, g rt = g' rt) -> focus r m g -> focus r m g'.
Proof.
  intros Heq Hm s rt Hr. rewrite <- Heq. by apply Hm.
Qed.

Lemma focus_load (r : ptr) : focus r (load r) (fun rt => (rt, Ok rt)).
Proof.
  intros s rt Hr. unfold load. rewrite Hr; simpl.
  by rewrite list_insert_id.
Qed.

Lemma focus_modify (r : ptr) (f : Router -> Router) :
  focus r (modify r f) (fun rt => (f rt, Ok tt)).
Proof.
  intros s rt Hr. unfold modify. by rewrite Hr.
Qed.

Lemma focus_router_call (r : ptr) (c : Registration) :
  focus r (router_call r c) (call_effect c).
Proof.
  intros s rt Hr. unfold router_call, call_effect, bind, load.
  rewrite Hr.
  destruct (registry_check (router rt) c) as [msg |].
  - unfold panic; simpl. by rewrite list_insert_id.
  - unfold modify. by rewrite Hr.
Qed.

(** A call through a pointer that is not allocated panics at once. *)
Lemma load_dangling (r : ptr) (s : Store) :
  s !! r = None -> load r s = (s, Panic NilDereference).
Proof. intros Hr. unfold load. by rewrite Hr. Qed.

(** One registry call under the router's root path, then [return r]. *)
Lemma focus_register_one (r : ptr) (mk : Router -> Registration) :
  focus r (rt <- load r ;; router_call r (mk rt) ;; ret r)%go
          (fun rt => register_then_return r [mk rt] rt).
Proof.
  eapply focus_ext; [| apply focus_bind; [apply focus_load |]].
  2: { intros rt0. apply focus_bind; [apply focus_router_call |].
       intros u. apply focus_ret. }
  intros rt. unfold bind, register_then_return, call_effect, ret; simpl.
  by destruct (registry_check (router rt) (mk rt)).
Qed.

Lemma focus_verb_op (v : Verb) (r : ptr) (path : string) (handle : Handle) :
  focus r (verb_op v r path handle)
    (fun rt => register_then_return r
                 [Route v (rootPath rt +:+ path) (handleFunc r handle)] rt).
Proof.
  destruct v; simpl;
    apply (focus_register_one r
             (fun rt => Route _ (rootPath rt +:+ path) (handleFunc r handle))).
Qed.

Lemma focus_WS (r : ptr) (path : string) (handle : Handle) :
  focus r (WS r path handle)
    (fun rt => register_then_return r
                 [Route MethodGet (rootPath rt +:+ path) (websocketFunc r handle)] rt).
Proof.
  apply (focus_register_one r
           (fun rt => Route MethodGet (rootPath rt +:+ path) (websocketFunc r handle))).
Qed.

Lemma focus_StaticFS (r : ptr) (path : string) (fs : http_FileSystem) :
  focus r (StaticFS r path fs)
    (fun rt => register_then_return r [ServeFiles (rootPath rt +:+ path) fs] rt).
Proof.
  apply (focus_register_one r (fun rt => ServeFiles (rootPath rt +:+ path) fs)).
Qed.

Lemma focus_Use (r : ptr) (ms : list Handle) :
  focus r (Use r ms) (fun rt => (set_middlewares (middlewares rt ++ ms) rt, Ok r)).
Proof.
  eapply focus_ext; [| apply focus_bind; [apply focus_modify |]].
  2: { intros u. apply focus_ret. }
  done.
Qed.

Lemma focus_bind_ret {A B} (r : ptr) (m : M Store A) (g : M Router A)
    (k : A -> M Store B) (h : A -> M Router B) :
  focus r m g ->
  (forall rt rt1 a, g rt = (rt1, Ok a) -> focus r (k a) (h a)) ->
  focus r (bind m k) (bind g h).
Proof.
  intros Hm Hk s rt Hr. unfold bind.
  rewrite (Hm s rt Hr).
  destruct (g rt) as [rt1 [a | e]] eqn:Hg; simpl; [| done].
  assert (Hlt : r < length s) by (eapply lookup_lt_Some; eauto).
  rewrite (Hk rt rt1 a Hg (<[r := rt1]> s) rt1); [| by apply list_lookup_insert_eq].
  by rewrite list_insert_insert_eq.
Qed.

Lemma focus_Any (r : ptr) (path : string) (handle : Handle) :
  focus r (Any r path handle)
    (fun rt => register_then_return r
                 (map (fun v => Route v (rootPath rt +:+ path) (handleFunc r handle))
                      all_verbs) rt).
Proof.
  unfold Any.
  eapply focus_ext.
  2: { apply focus_bind; [apply (focus_verb_op MethodGet) | intros _u1].
       apply focus_bind; [apply (focus_verb_op MethodHead) | intros _u2].
       apply focus_bind; [apply (focus_verb_op MethodOptions) | intros _u3].
       apply focus_bind; [apply (focus_verb_op MethodPost) | intros _u4].
       apply focus_bind; [apply (focus_verb_op MethodPut) | intros _u5].
       apply focus_bind; [apply (focus_verb_op MethodPatch) | intros _u6].
       apply focus_bind; [apply (focus_verb_op MethodDelete) | intros _u7].
       apply focus_ret. }
  intros rt. unfold bind, register_then_return, ret; simpl.
  repeat (destruct (registry_check _ _); simpl; [done |]).
  done.
Qed.

Lemma focus_easy_verb_op (v : Verb) (r : ptr) (path : string)
    (easyHandle : EasyHandle) (opts : list PluginOptions) :
  focus r (easy_verb_op v r path easyHandle opts)
          (op_effect r (op_Easy v path easyHandle opts)).
Proof.
  eapply focus_ext.
  2: { unfold easy_verb_op.
       instantiate (1 := bind (fun rt => (rt, Ok rt))
                           (fun rt0 rt => register_then_return r
                              [Route v (rootPath rt +:+ path)
                                 (handleFunc r (buildHandle r rt0 easyHandle opts))] rt)).
       destruct v;
         (apply focus_bind; [apply focus_load | intros rt0]).
       - apply (focus_verb_op MethodGet).
       - apply (focus_verb_op MethodHead).
       - apply (focus_verb_op MethodOptions).
       - apply (focus_verb_op MethodPost).
       - apply (focus_verb_op MethodPut).
       - apply (focus_verb_op MethodPatch).
       - apply (focus_verb_op MethodDelete). }
  done.
Qed.

Lemma focus_EasyAny (r : ptr) (path : string)
    (easyHandle : EasyHandle) (opts : list PluginOptions) :
  focus r (EasyAny r path easyHandle opts)
          (op_effect r (op_EasyAny path easyHandle opts)).
Proof.
  eapply focus_ext.
  2: { apply focus_bind; [apply focus_load | intros rt0; apply focus_Any]. }
  done.
Qed.

(** Every registration operation rewrites the cell of its receiver only,
    as [op_effect] says. *)
Lemma focus_run_op (r : ptr) (op : RegistrationOp) :
  focus r (run_op r op) (op_effect r op).
Proof.
  destruct op; simpl.
  - apply focus_verb_op.
  - apply focus_Any.
  - apply focus_WS.
  - apply focus_StaticFS.
  - apply focus_StaticFS.
  - apply focus_Use.
  - apply focus_easy_verb_op.
  - apply focus_EasyAny.
Qed.

Lemma run_op_dangling (r : ptr) (op : RegistrationOp) (s : Store) :
  s !! r = None -> run_op r op s = (s, Panic NilDereference).
Proof.
  intros Hr.
  destruct op as [v ? ? | ? ? | ? ? | ? ? | ? ? | ? | v ? ? ? | ? ? ?];
    try destruct v; simpl;
    unfold EasyGET, EasyHEAD, EasyOPTIONS, EasyPOST, EasyPUT, EasyPATCH,
      EasyDELETE, EasyAny, Any, Static, StaticFS, WS, Use,
      GET, HEAD, OPTIONS, POST, PUT, PATCH, DELETE, bind, load, modify;
    by rewrite Hr.
Qed.

(** ** What an operation leaves alone *)

Lemma register_all_spec (cs : list Registration) (rt rt' : Router) (res : option string) :
  register_all rt cs = (rt', res) ->
  same_configuration rt' rt /\ middlewares rt' = middlewares rt /\
  exists k, k <= length cs /\ router rt' = router rt ++ take k cs /\
            (res = None -> k = length cs).
Proof.
  revert rt. induction cs as [| c cs IH]; intros rt Hreg; simpl in Hreg.
  - inversion Hreg; subst.
    repeat split. exists 0. simpl. rewrite app_nil_r. auto.
  - destruct (registry_check (router rt) c) as [msg |].
    + inversion Hreg; subst.
      repeat split. exists 0. simpl. rewrite app_nil_r.
      split; [lia |]. split; [done | discriminate].
    + destruct (IH _ Hreg) as (Hcfg & Hmw & k & Hk & Hrt & Hres).
      split; [exact Hcfg |]. split; [exact Hmw |].
      exists (S k). simpl in *. rewrite Hrt, <- app_assoc. simpl.
      split; [lia |]. split; [done |]. intros Hn. by rewrite Hres.
Qed.

Lemma register_all_accepted (cs : list Registration) (rt : Router) :
  (forall k c, cs !! k = Some c -> registry_check (router rt ++ take k cs) c = None) ->
  register_all rt cs = (set_router (router rt ++ cs) rt, None).
Proof.
  revert rt. induction cs as [| c cs IH]; intros rt Hacc; simpl.
  - rewrite app_nil_r. by destruct rt.
  - pose proof (Hacc 0 c eq_refl) as H0. simpl in H0. rewrite app_nil_r in H0.
    rewrite H0, IH.
    + simpl. f_equal. unfold set_router; simpl. by rewrite <- app_assoc.
    + intros k d Hk. simpl. rewrite <- app_assoc. by apply (Hacc (S k)).
Qed.

Lemma op_effect_spec (r : ptr) (op : RegistrationOp) (rt rt' : Router) (res : Result ptr) :
  op_effect r op rt = (rt', res) ->
  same_configuration rt' rt /\
  (exists ms, middlewares rt' = middlewares rt ++ ms) /\
  (exists cs, router rt' = router rt ++ cs) /\
  (forall a, res = Ok a -> a = r).
Proof.
  unfold op_effect. intros Hop.
  assert (Hreg : forall cs, register_then_return r cs rt = (rt', res) ->
            same_configuration rt' rt /\
            (exists ms, middlewares rt' = middlewares rt ++ ms) /\
            (exists cs, router rt' = router rt ++ cs) /\
            (forall a, res = Ok a -> a = r)).
  { intros cs. unfold register_then_return.
    destruct (register_all rt cs) as [rt1 o] eqn:Hall.
    destruct (register_all_spec _ _ _ _ Hall) as (Hcfg & Hmw & k & _ & Hrt & _).
    intros Heq.
    assert (rt1 = rt') by (destruct o; congruence). subst rt1.
    split; [exact Hcfg |].
    split; [exists []; by rewrite app_nil_r |].
    split; [by exists (take k cs) |].
    intros a ->. destruct o; congruence. }
  destruct op; try (by eapply Hreg).
  inversion Hop; subst; simpl.
  split; [by repeat split |].
  split; [by exists ms |].
  split; [exists []; by rewrite app_nil_r |].
  congruence.
Qed.

Lemma focus_run_chain (ops : list RegistrationOp) (r : ptr) :
  focus r (run_chain r ops) (chain_effect r ops).
Proof.
  induction ops as [| op ops IH]; simpl.
  - apply focus_ret.
  - apply focus_bind_ret; [apply focus_run_op |].
    intros rt rt1 a Hop.
    destruct (op_effect_spec _ _ _ _ _ Hop) as (_ & _ & _ & Hret).
    rewrite (Hret a eq_refl). apply IH.
Qed.

(** ** Registry lookups and root-path prefixes *)

Lemma Verb_eqb_eq (a b : Verb) : Verb_eqb a b = true <-> a = b.
Proof. destruct a, b; simpl; split; congruence. Qed.

Lemma length_append (a b : string) :
  String.length (a +:+ b) = String.length a + String.length b.
Proof. induction a as [| c a IH]; simpl; [done | by rewrite IH]. Qed.

Lemma prefixed_path_differs (root path : string) :
  root <> "" -> root +:+ path <> path.
Proof.
  intros Hroot Heq.
  apply (f_equal String.length) in Heq. rewrite length_append in Heq.
  destruct root; [done | simpl in Heq; lia].
Qed.

Lemma static_lookup_snoc (reg : list Registration) (v : Verb) (p : string)
    (f : httprouter_Handle) (v' : Verb) (p' : string) :
  static_lookup (reg ++ [Route v p f]) v' p' =
  match static_lookup reg v' p' with
  | Some g => Some g
  | None => if Verb_eqb v v' && String.eqb p p' then Some f else None
  end.
Proof.
  unfold static_lookup.
  induction reg as [| c reg IH]; simpl.
  - by destruct (Verb_eqb v v' && String.eqb p p').
  - destruct (matches_static v' p' c) eqn:Hc; [| exact IH].
    destruct c; [done | discriminate].
Qed.

Lemma register_all_refused (cs : list Registration) (rt : Router)
    (k : nat) (c : Registration) (msg : string) :
  cs !! k = Some c ->
  (forall j d, j < k -> cs !! j = Some d ->
     registry_check (router rt ++ take j cs) d = None) ->
  registry_check (router rt ++ take k cs) c = Some msg ->
  register_all rt cs = (set_router (router rt ++ take k cs) rt, Some msg).
Proof.
  revert rt k. induction cs as [| c0 cs IH]; intros rt k Hk Hbefore Hat; [done |].
  destruct k as [| k]; simpl in *.
  - inversion Hk; subst c0. rewrite app_nil_r in *. rewrite Hat.
    by destruct rt.
  - pose proof (Hbefore 0 c0 ltac:(lia) eq_refl) as H0.
    simpl in H0. rewrite app_nil_r in H0. rewrite H0.
    rewrite (IH _ k Hk).
    + unfold set_router; simpl. by rewrite <- app_assoc.
    + intros j d Hj Hd. simpl. rewrite <- app_assoc.
      apply (Hbefore (S j) d); [lia | done].
    + simpl. by rewrite <- app_assoc.
Qed.

(** ** Verb registrations, [Any] and [Use] *)

(** One accepted registry call through [load], [router_call] and
    [return r], with the registry read back from the store. *)
Lemma register_then_return_accepted (r : ptr) (c : Registration)
    (s : Store) (rt : Router) :
  s !! r = Some rt ->
  registry_check (router rt) c = None ->
  exists rt',
    (<[r := fst (register_then_return r [c] rt)]> s,
     snd (register_then_return r [c] rt)) = (<[r := rt']> s, Ok r) /\
    <[r := rt']> s !! r = Some rt' /\
    router rt' = router rt ++ [c] /\
    middlewares rt' = middlewares rt /\
    same_configuration rt' rt.
Proof.
  intros Hr Hacc.
  exists (set_router (router rt ++ [c]) rt).
  unfold register_then_return, register_all. rewrite Hacc. simpl.
  split; [done |].
  split; [apply list_lookup_insert_eq; by eapply lookup_lt_Some |].
  by repeat split.
Qed.

Lemma register_then_return_refused (r : ptr) (c : Registration)
    (s : Store) (rt : Router) (msg : string) :
  s !! r = Some rt ->
  registry_check (router rt) c = Some msg ->
  (<[r := fst (register_then_return r [c] rt)]> s,
   snd (register_then_return r [c] rt)) = (s, Panic (RegistryPanic msg)).
Proof.
  intros Hr Hrej.
  unfold register_then_return, register_all. rewrite Hrej. simpl.
  by rewrite list_insert_id.
Qed.

Lemma static_lookup_other_key (reg : list Registration) (v : Verb) (p : string)
    (f : httprouter_Handle) (v' : Verb) (p' : string) :
  v' <> v \/ p' <> p ->
  static_lookup (reg ++ [Route v p f]) v' p' = static_lookup reg v' p'.
Proof.
  intros Hother. rewrite static_lookup_snoc.
  destruct (static_lookup reg v' p'); [done |].
  destruct (Verb_eqb v v') eqn:Hv, (String.eqb p p') eqn:Hp; simpl; try done.
  apply Verb_eqb_eq in Hv. apply String.eqb_eq in Hp.
  destruct Hother; congruence.
Qed.

(** C1. Each verb registration (GET, HEAD, OPTIONS, POST, PUT, PATCH,
    DELETE) called with path [p] and handle [h], when the registry takes
    the call, returns the router and leaves in the store a router whose
    registry is the earlier registry followed by one route, keyed by the
    verb and by the root path followed by [p]; nothing else of the router
    changes.  Where the registry so extended holds static routes only, the
    handle answers at the prefixed path under that verb if nothing
    answered there before, every other (verb, path) keeps its answer, and
    with a non-empty root path the bare path [p] gains nothing: with root
    path "/api/v1", [GET("/ping", h)] makes [h] reachable at
    "/api/v1/ping" and not at "/ping".  A request that reaches the route
    runs [r.handle(h, res, req, par, nil)] on the router of the
    registration. *)
Theorem verb_registration_keyed_by_prefixed_path
    (v : Verb) (r : ptr) (path : string) (handle : Handle)
    (s : Store) (rt : Router) :
  s !! r = Some rt ->
  registry_check (router rt)
    (Route v (rootPath rt +:+ path) (handleFunc r handle)) = None ->
  let key := rootPath rt +:+ path in
  let route := Route v key (handleFunc r handle) in
  exists rt',
    verb_op v r path handle s = (<[r := rt']> s, Ok r) /\
    <[r := rt']> s !! r = Some rt' /\
    router rt' = router rt ++ [route] /\
    middlewares rt' = middlewares rt /\
    same_configuration rt' rt /\
    (static_registry (router rt') = true ->
     (static_lookup (router rt) v key = None ->
      static_lookup (router rt') v key = Some (handleFunc r handle)) /\
     (forall v' p', v' <> v \/ p' <> key ->
        static_lookup (router rt') v' p' = static_lookup (router rt) v' p') /\
     (rootPath rt <> "" ->
      static_lookup (router rt') v path = static_lookup (router rt) v path)) /\
    (forall config req,
       serve route config req =
       Pipeline {| receiver := r; route_handle := handle; over_socket := false |}).
Proof.
  intros Hr Hacc key route.
  destruct (register_then_return_accepted r route s rt Hr Hacc)
    as (rt' & Hrun & Hr' & Hreg & Hmw & Hcfg).
  exists rt'.
  split; [by rewrite (focus_verb_op v r path handle s rt Hr) |].
  split; [exact Hr' |]. split; [exact Hreg |].
  split; [exact Hmw |]. split; [exact Hcfg |].
  split; [| done].
  intros _. rewrite Hreg. split; [| split].
  - intros Hnone. unfold route. rewrite static_lookup_snoc, Hnone.
    assert (Hv : Verb_eqb v v = true) by (by apply Verb_eqb_eq).
    by rewrite Hv, String.eqb_refl.
  - intros v' p' Hother. by apply static_lookup_other_key.
  - intros Hroot. apply static_lookup_other_key. right.
    intros Heq. by apply (prefixed_path_differs (rootPath rt) path).
Qed.

(** C2. [Any(p, h)] is the seven verb registrations GET, HEAD, OPTIONS,
    POST, PUT, PATCH, DELETE of the same handle at [p], made one after the
    other.  It forwards exactly these seven calls to the registry, in that
    order and whatever the registry already holds; when the registry takes
    them all, seven routes are appended and the router is returned; when
    the registry refuses one, its panic leaves [Any] as it is, with the
    earlier registrations in place. *)
Theorem Any_registers_under_each_verb
    (r : ptr) (path : string) (handle : Handle) (s : Store) (rt : Router) :
  s !! r = Some rt ->
  let entries :=
    map (fun v => Route v (rootPath rt +:+ path) (handleFunc r handle)) all_verbs in
  Any r path handle s = register_under_each_verb r path handle s /\
  length entries = 7 /\
  Any r path handle s =
    (<[r := fst (register_all rt entries)]> s,
     match snd (register_all rt entries) with
     | None => Ok r
     | Some msg => Panic (RegistryPanic msg)
     end) /\
  ((forall k c, entries !! k = Some c ->
      registry_check (router rt ++ take k entries) c = None) ->
   Any r path handle s = (<[r := set_router (router rt ++ entries) rt]> s, Ok r)) /\
  (forall k c msg,
     entries !! k = Some c ->
     (forall j d, j < k -> entries !! j = Some d ->
        registry_check (router rt ++ take j entries) d = None) ->
     registry_check (router rt ++ take k entries) c = Some msg ->
     Any r path handle s =
       (<[r := set_router (router rt ++ take k entries) rt]> s,
        Panic (RegistryPanic msg))).
Proof.
  intros Hr entries.
  assert (Hany : Any r path handle s =
    (<[r := fst (register_all rt entries)]> s,
     match snd (register_all rt entries) with
     | None => Ok r
     | Some msg => Panic (RegistryPanic msg)
     end)).
  { rewrite (focus_Any r path handle s rt Hr).
    fold entries. unfold register_then_return.
    by destruct (register_all rt entries) as [rt' [msg |]]. }
  split; [reflexivity |]. split; [reflexivity |]. split; [exact Hany |]. split.
  - intros Hacc. rewrite Hany. by rewrite (register_all_accepted entries rt Hacc).
  - intros k c msg Hk Hbefore Hat. rewrite Hany.
    by rewrite (register_all_refused entries rt k c msg Hk Hbefore Hat).
Qed.

Lemma focus_Use_chain (calls : list (list Handle)) (r : ptr) :
  focus r (Use_chain r calls)
    (fun rt => (set_middlewares (middlewares rt ++ concat calls) rt, Ok r)).
Proof.
  induction calls as [| ms calls IH]; simpl.
  - eapply focus_ext; [| apply focus_ret].
    intros rt. unfold ret. rewrite app_nil_r. by destruct rt.
  - eapply focus_ext.
    2: { apply (focus_bind_ret r (Use r ms)
                  (fun rt => (set_middlewares (middlewares rt ++ ms) rt, Ok r))
                  (fun r' => Use_chain r' calls)
                  (fun r' rt => (set_middlewares (middlewares rt ++ concat calls) rt,
                                 Ok r'))); [apply focus_Use |].
         intros rt rt1 a Huse. inversion Huse; subst a. apply IH. }
    intros rt. unfold bind, set_middlewares; simpl. by rewrite <- app_assoc.
Qed.

(** C3. [Use] appends its arguments to the router's middleware list.
    After any chain of [Use] calls the list is the earlier list followed by
    the arguments of the calls, call after call and argument after
    argument: registration order.  That list is the one a request-time
    call reads through the router pointer. *)
Theorem Use_appends_in_registration_order
    (r : ptr) (calls : list (list Handle)) (s : Store) (rt : Router) :
  s !! r = Some rt ->
  let s' := <[r := set_middlewares (middlewares rt ++ concat calls) rt]> s in
  (forall ms, Use r ms s =
     (<[r := set_middlewares (middlewares rt ++ ms) rt]> s, Ok r)) /\
  Use_chain r calls s = (s', Ok r) /\
  (forall call, receiver call = r ->
     request_middlewares s' call = Some (middlewares rt ++ concat calls)).
Proof.
  intros Hr s'. split; [| split].
  - intros ms. by rewrite (focus_Use r ms s rt Hr).
  - by rewrite (focus_Use_chain calls r s rt Hr).
  - intros call Hcall. unfold request_middlewares, s'. rewrite Hcall.
    rewrite list_lookup_insert_eq; [done |]. by eapply lookup_lt_Some.
Qed.

(** ** Construction from options *)

Lemma apply_options_spec (rt : Router) (v : RouterOptions) :
  rootPath (apply_options rt v) = override (rootPath rt) (RootPath_set v) /\
  multipartFormMaxMemory (apply_options rt v) =
    override (multipartFormMaxMemory rt) (MultipartFormMaxMemory_set v) /\
  errorHandle (apply_options rt v) =
    override (errorHandle rt) (Some <$> ErrorHandle_opt v) /\
  requestHandle (apply_options rt v) =
    override (requestHandle rt) (Some <$> RequestHandle_opt v) /\
  responseHandle (apply_options rt v) =
    override (responseHandle rt) (Some <$> ResponseHandle_opt v) /\
  closeConsolePrint (apply_options rt v) = CloseConsolePrint v /\
  router (apply_options rt v) = router rt /\
  middlewares (apply_options rt v) = middlewares rt.
Proof.
  unfold apply_options, RootPath_set, MultipartFormMaxMemory_set.
  destruct (String.eqb (RootPath v) ""), (0 <? MultipartFormMaxMemory v)%Z,
    (ErrorHandle_opt v), (RequestHandle_opt v), (ResponseHandle_opt v);
    simpl; repeat split.
Qed.

Lemma fold_apply_options_spec (opts : list RouterOptions) (rt : Router) :
  let rt' := fold_left apply_options opts rt in
  rootPath rt' = resolve (rootPath rt) (map RootPath_set opts) /\
  multipartFormMaxMemory rt' =
    resolve (multipartFormMaxMemory rt) (map MultipartFormMaxMemory_set opts) /\
  errorHandle rt' =
    resolve (errorHandle rt) (map (fun v => Some <$> ErrorHandle_opt v) opts) /\
  requestHandle rt' =
    resolve (requestHandle rt) (map (fun v => Some <$> RequestHandle_opt v) opts) /\
  responseHandle rt' =
    resolve (responseHandle rt) (map (fun v => Some <$> ResponseHandle_opt v) opts) /\
  closeConsolePrint rt' =
    resolve (closeConsolePrint rt) (map (fun v => Some (CloseConsolePrint v)) opts) /\
  router rt' = router rt /\
  middlewares rt' = middlewares rt.
Proof.
  revert rt. induction opts as [| v opts IH]; intros rt; simpl.
  - repeat split.
  - destruct (apply_options_spec rt v) as (H1 & H2 & H3 & H4 & H5 & H6 & H7 & H8).
    destruct (IH (apply_options rt v)) as (I1 & I2 & I3 & I4 & I5 & I6 & I7 & I8).
    unfold resolve in *; simpl.
    rewrite I1, I2, I3, I4, I5, I6, I7, I8, H1, H2, H3, H4, H5, H6, H7, H8.
    repeat split.
Qed.

(** Resolution over hooks that start out non-nil stays non-nil. *)
Lemma resolve_non_nil {A} (d : A) (fields : list (option A)) :
  resolve (Some d) (map (fmap Some) fields) = Some (resolve d fields).
Proof.
  revert d. unfold resolve.
  induction fields as [| [x |] fields IH]; intros d; simpl; [done | apply IH ..].
Qed.

Lemma resolve_snoc {A} (d : A) (fields : list (option A)) (x : option A) :
  resolve d (fields ++ [x]) = override (resolve d fields) x.
Proof. unfold resolve. by rewrite fold_left_app. Qed.

Lemma banner_printed (rt : Router) (addr : string) :
  closeConsolePrint rt = false -> consoleStartPrint rt addr <> "".
Proof.
  intros Hflag. unfold consoleStartPrint. rewrite Hflag.
  unfold banner. cbn [String.append]. discriminate.
Qed.

(** C4. [New] resolves every [RouterOptions] field on its own.  Without
    options the router holds the built-in defaults: empty root path, a
    multipart ceiling of 32 << 20 = 33554432 bytes, the three default hooks,
    the banner enabled, no route and no middleware.  With one options value
    each field of the router is either that value's field, when it is set
    (non-empty root path, positive ceiling, non-nil hook), or the default,
    whole; for a list of values each field is resolved along its own
    column of the list and from nothing else. *)
Theorem New_resolves_each_field (opts : list RouterOptions) (o : RouterOptions) (s : Store) :
  New [] s = (s ++ [initial_router], Ok (length s)) /\
  (rootPath initial_router = "" /\
   multipartFormMaxMemory initial_router = 33554432%Z /\
   errorHandle initial_router = Some defaultErrorHandle /\
   requestHandle initial_router = Some defaultRequestHandle /\
   responseHandle initial_router = Some defaultResponseHandle /\
   closeConsolePrint initial_router = false) /\
  (exists rt,
     New [o] s = (s ++ [rt], Ok (length s)) /\
     rootPath rt = (if String.eqb (RootPath o) "" then "" else RootPath o) /\
     multipartFormMaxMemory rt =
       (if (0 <? MultipartFormMaxMemory o)%Z
        then MultipartFormMaxMemory o else 33554432%Z) /\
     errorHandle rt = Some (override defaultErrorHandle (ErrorHandle_opt o)) /\
     requestHandle rt = Some (override defaultRequestHandle (RequestHandle_opt o)) /\
     responseHandle rt = Some (override defaultResponseHandle (ResponseHandle_opt o)) /\
     closeConsolePrint rt = CloseConsolePrint o /\
     router rt = [] /\ middlewares rt = []) /\
  (exists rt,
     New opts s = (s ++ [rt], Ok (length s)) /\
     rootPath rt = resolve "" (map RootPath_set opts) /\
     multipartFormMaxMemory rt =
       resolve 33554432%Z (map MultipartFormMaxMemory_set opts) /\
     errorHandle rt = Some (resolve defaultErrorHandle (map ErrorHandle_opt opts)) /\
     requestHandle rt = Some (resolve defaultRequestHandle (map RequestHandle_opt opts)) /\
     responseHandle rt =
       Some (resolve defaultResponseHandle (map ResponseHandle_opt opts)) /\
     router rt = [] /\ middlewares rt = []).
Proof.
  split; [reflexivity |]. split; [by repeat split |]. split.
  - exists (apply_options initial_router o). split; [reflexivity |].
    destruct (apply_options_spec initial_router o)
      as (H1 & H2 & H3 & H4 & H5 & H6 & H7 & H8).
    rewrite H1, H2, H3, H4, H5, H6, H7, H8.
    unfold RootPath_set, MultipartFormMaxMemory_set; simpl.
    destruct (String.eqb (RootPath o) ""), (0 <? MultipartFormMaxMemory o)%Z,
      (ErrorHandle_opt o), (RequestHandle_opt o), (ResponseHandle_opt o);
      by repeat split.
  - exists (fold_left apply_options opts initial_router). split; [reflexivity |].
    destruct (fold_apply_options_spec opts initial_router)
      as (H1 & H2 & H3 & H4 & H5 & _ & H7 & H8).
    rewrite H1, H2, H3, H4, H5, H7, H8. simpl.
    rewrite <- !resolve_non_nil, !map_map.
    by repeat split.
Qed.

(** C10. Given several options values, [New] lets a later value override
    root path, multipart ceiling and the three hooks only where that value
    sets them (non-empty, positive, non-nil), and otherwise keeps what the
    earlier values established; the banner flag is copied from every value
    in turn, so the router ends with the flag of the last value.  A last
    value that leaves the flag [false] re-enables the banner whatever the
    earlier values asked for. *)
Theorem New_last_options_flag_always_wins
    (opts : list RouterOptions) (o : RouterOptions) (s : Store) :
  exists rt0 rt,
    New opts s = (s ++ [rt0], Ok (length s)) /\
    New (opts ++ [o]) s = (s ++ [rt], Ok (length s)) /\
    rootPath rt = (if String.eqb (RootPath o) "" then rootPath rt0 else RootPath o) /\
    multipartFormMaxMemory rt =
      (if (0 <? MultipartFormMaxMemory o)%Z
       then MultipartFormMaxMemory o else multipartFormMaxMemory rt0) /\
    errorHandle rt =
      match ErrorHandle_opt o with Some f => Some f | None => errorHandle rt0 end /\
    requestHandle rt =
      match RequestHandle_opt o with Some f => Some f | None => requestHandle rt0 end /\
    responseHandle rt =
      match ResponseHandle_opt o with Some f => Some f | None => responseHandle rt0 end /\
    closeConsolePrint rt = CloseConsolePrint o /\
    (CloseConsolePrint o = false ->
     forall addr, consoleStartPrint rt addr <> "") /\
    (CloseConsolePrint o = true ->
     forall addr, consoleStartPrint rt addr = "").
Proof.
  exists (fold_left apply_options opts initial_router),
         (fold_left apply_options (opts ++ [o]) initial_router).
  split; [reflexivity |]. split; [reflexivity |].
  rewrite fold_left_app. cbn [fold_left].
  set (rt0 := fold_left apply_options opts initial_router).
  destruct (apply_options_spec rt0 o) as (H1 & H2 & H3 & H4 & H5 & H6 & _ & _).
  rewrite H1, H2, H3, H4, H5, H6.
  unfold RootPath_set, MultipartFormMaxMemory_set.
  split; [by destruct (String.eqb (RootPath o) "") |].
  split; [by destruct (0 <? MultipartFormMaxMemory o)%Z |].
  split; [by destruct (ErrorHandle_opt o) |].
  split; [by destruct (RequestHandle_opt o) |].
  split; [by destruct (ResponseHandle_opt o) |].
  split; [done |].
  split.
  - intros Hflag addr. apply banner_printed. by rewrite H6.
  - intros Hflag addr. unfold consoleStartPrint. by rewrite H6, Hflag.
Qed.

(** ** Routes and the router they call back into *)

Lemma calls_of_registered_on (r : ptr) (rt : Router) (op : RegistrationOp) :
  Forall (registered_on r) (calls_of r rt op).
Proof.
  destruct op; simpl; repeat constructor.
Qed.

Lemma op_effect_registered_on (r : ptr) (op : RegistrationOp)
    (rt rt' : Router) (res : Result ptr) :
  op_effect r op rt = (rt', res) ->
  Forall (registered_on r) (router rt) ->
  Forall (registered_on r) (router rt').
Proof.
  intros Hop Hall.
  assert (Hreg : register_then_return r (calls_of r rt op) rt = (rt', res) ->
                 Forall (registered_on r) (router rt')).
  { unfold register_then_return.
    destruct (register_all rt (calls_of r rt op)) as [rt1 o] eqn:Hreg.
    destruct (register_all_spec _ _ _ _ Hreg) as (_ & _ & k & _ & Hrt & _).
    intros Heq. assert (rt1 = rt') by (destruct o; congruence). subst rt1.
    rewrite Hrt. apply Forall_app. split; [done |].
    apply Forall_take, calls_of_registered_on. }
  destruct op; try (by apply Hreg).
  unfold op_effect in Hop. by inversion Hop; subst.
Qed.

Lemma chain_effect_spec (ops : list RegistrationOp) (r : ptr)
    (rt rt' : Router) (res : Result ptr) :
  chain_effect r ops rt = (rt', res) ->
  same_configuration rt' rt /\
  (Forall (registered_on r) (router rt) -> Forall (registered_on r) (router rt')) /\
  (forall a, res = Ok a -> a = r).
Proof.
  revert rt. induction ops as [| op ops IH]; intros rt Hchain; simpl in Hchain.
  - inversion Hchain; subst. split; [by repeat split |]. split; [done | congruence].
  - unfold bind in Hchain.
    destruct (op_effect r op rt) as [rt1 [a | e]] eqn:Hop.
    + destruct (op_effect_spec _ _ _ _ _ Hop) as (Hcfg & _ & _ & Hret).
      rewrite (Hret a eq_refl) in Hchain.
      destruct (IH _ Hchain) as (Hcfg' & Hreg' & Hret').
      split.
      { unfold same_configuration in *.
        destruct Hcfg as (-> & -> & -> & -> & -> & ->) in Hcfg'. exact Hcfg'. }
      split; [| exact Hret'].
      intros Hall. apply Hreg'. by eapply op_effect_registered_on.
    + inversion Hchain; subst.
      destruct (op_effect_spec _ _ _ _ _ Hop) as (Hcfg & _ & _ & _).
      split; [exact Hcfg |]. split; [| congruence].
      intros Hall. by eapply op_effect_registered_on.
Qed.

Lemma serve_Pipeline_receiver (r : ptr) (c : Registration)
    (config : Config) (req : Request) (call : handle_call) :
  registered_on r c -> serve c config req = Pipeline call -> receiver call = r.
Proof.
  destruct c as [v p [r' h | r' h] | p root]; simpl; intros Hon Hserve.
  - by inversion Hserve; subst.
  - unfold websocket_ServeHTTP in Hserve; simpl in Hserve.
    destruct (ReadHandshake req); [discriminate |].
    by inversion Hserve; subst.
  - discriminate.
Qed.

Lemma WS_dangling (r : ptr) (path : string) (handle : Handle) (s : Store) :
  s !! r = None -> WS r path handle s = (s, Panic NilDereference).
Proof. intros Hr. unfold WS, bind, load. by rewrite Hr. Qed.

(** The route a returning [WS] call leaves last in the registry. *)
Lemma WS_last_route (r : ptr) (path : string) (handle : Handle)
    (s s' : Store) (v : ptr) (rt' : Router) :
  WS r path handle s = (s', Ok v) ->
  s' !! r = Some rt' ->
  exists rt, s !! r = Some rt /\
    last (router rt') =
    Some (Route MethodGet (rootPath rt +:+ path) (websocketFunc r handle)).
Proof.
  intros Hws Hr'.
  destruct (s !! r) as [rt |] eqn:Hr.
  - exists rt. split; [done |].
    rewrite (focus_WS r path handle s rt Hr) in Hws.
    unfold register_then_return, register_all in Hws.
    destruct (registry_check (router rt) _); simpl in Hws; [congruence |].
    injection Hws as Hs' Hv. subst s' v.
    rewrite list_lookup_insert_eq in Hr' by (by eapply lookup_lt_Some).
    injection Hr' as Hrt'. subst rt'. simpl. apply last_snoc.
  - rewrite (WS_dangling r path handle s Hr) in Hws. congruence.
Qed.


(** C6, as amended.  The handshake step of a [WS] route is not open to
    configuration: [WS] takes a path and a handle and nothing else, and the
    route a returning [WS] call installs is a GET route whose handshake
    function, handed the websocket config and the original request,
    accepts whatever they are.  Every [WS] route carries that same
    function; the websocket server would honour a refusing one on a
    well-formed upgrade, but none can be supplied. *)
Theorem WS_handshake_is_fixed
    (r : ptr) (path : string) (handle : Handle) (s s' : Store) (rt' : Router)
    (verb : Verb) (p : string) (f : httprouter_Handle) :
  WS r path handle s = (s', Ok r) ->
  s' !! r = Some rt' ->
  last (router rt') = Some (Route verb p f) ->
  verb = MethodGet /\
  f = websocketFunc r handle /\
  (forall config req, handshake_decision f config req = None) /\
  (forall r2 handle2,
     Handshake (WS_server r2 handle2) = Handshake (WS_server r handle)) /\
  Handshake (WS_server r handle) = Some (fun _ _ => None) /\
  (forall srv decision config req e,
     ReadHandshake req = None ->
     Handshake srv = Some decision -> decision config req = Some e ->
     websocket_ServeHTTP srv config req = Forbidden e).
Proof.
  intros Hws Hr' Hlast.
  destruct (WS_last_route _ _ _ _ _ _ _ Hws Hr') as (rt & _ & Hroute).
  rewrite Hroute in Hlast. inversion Hlast; subst.
  split; [done |]. split; [done |].
  split.
  { intros config req. unfold handshake_decision; simpl.
    unfold websocket_ServeHTTP; simpl. by destruct (ReadHandshake req). }
  split; [done |]. split; [done |].
  intros srv decision config req e Hread Hsrv Hdec.
  unfold websocket_ServeHTTP. by rewrite Hread, Hsrv, Hdec.
Qed.

(** C7. [PluginOptions] is made of a [RequestHandle] and a
    [ResponseHandle] override and of nothing else, so a per-route call has
    no way to name an [ErrorHandle].  Whatever chain of registrations
    follows [New], with whatever per-route options, the router keeps the
    [ErrorHandle] resolved at construction (the last non-nil one among the
    options values, else the default), and every route of the router that
    enters the request pipeline does so through that router: the
    [ErrorHandle] it finds there is the router-wide one. *)
Theorem errorHandle_is_router_wide
    (opts : list RouterOptions) (ops : list RegistrationOp) (s0 : Store) :
  let r := length s0 in
  let s1 := fst (New opts s0) in
  let s2 := fst (run_chain r ops s1) in
  let router_wide := Some (resolve defaultErrorHandle (map ErrorHandle_opt opts)) in
  (forall p : PluginOptions,
     p = {| plugin_RequestHandle := plugin_RequestHandle p;
            plugin_ResponseHandle := plugin_ResponseHandle p |}) /\
  snd (New opts s0) = Ok r /\
  errorHandle <$> (s1 !! r) = Some router_wide /\
  errorHandle <$> (s2 !! r) = Some router_wide /\
  (forall rt2 c config req call,
     s2 !! r = Some rt2 -> In c (router rt2) ->
     serve c config req = Pipeline call ->
     request_errorHandle s2 call = Some router_wide).
Proof.
  intros r s1 s2 router_wide.
  set (rt1 := fold_left apply_options opts initial_router).
  assert (Hs1 : s1 = s0 ++ [rt1]) by reflexivity.
  assert (Hr1 : s1 !! r = Some rt1).
  { rewrite Hs1. apply list_lookup_middle. done. }
  assert (He1 : errorHandle rt1 = router_wide).
  { destruct (fold_apply_options_spec opts initial_router) as (_ & _ & H3 & _).
    unfold rt1, router_wide. rewrite H3. simpl.
    by rewrite <- resolve_non_nil, map_map. }
  assert (Hreg1 : router rt1 = []).
  { by destruct (fold_apply_options_spec opts initial_router)
      as (_ & _ & _ & _ & _ & _ & H7 & _). }
  destruct (chain_effect r ops rt1) as [rt2 res] eqn:Hchain.
  assert (Hs2 : s2 = <[r := rt2]> s1).
  { unfold s2. rewrite (focus_run_chain ops r s1 rt1 Hr1). by rewrite Hchain. }
  assert (Hr2 : s2 !! r = Some rt2).
  { rewrite Hs2. apply list_lookup_insert_eq. by eapply lookup_lt_Some. }
  destruct (chain_effect_spec _ _ _ _ _ Hchain) as (Hcfg & Hon & _).
  assert (He2 : errorHandle rt2 = router_wide).
  { destruct Hcfg as (_ & _ & He & _). by rewrite He. }
  split; [by intros [? ?] |]. split; [reflexivity |].
  split; [by rewrite Hr1; simpl; rewrite He1 |].
  split; [by rewrite Hr2; simpl; rewrite He2 |].
  intros rt2' c config req call Hrt2' Hin Hserve.
  assert (rt2' = rt2) by congruence. subst rt2'.
  assert (Hall : Forall (registered_on r) (router rt2)).
  { apply Hon. rewrite Hreg1. constructor. }
  rewrite Forall_forall in Hall.
  assert (Hrecv : receiver call = r).
  { eapply serve_Pipeline_receiver; [| exact Hserve].
    apply Hall. by apply list_elem_of_In. }
  unfold request_errorHandle. rewrite Hrecv, Hr2. simpl. by rewrite He2.
Qed.

(** C8. [StaticFS(p, fs)] hands the root path followed by [p], and [fs],
    to the registry's file-serving operation; [Static(p, dir)] is
    [StaticFS(p, http.Dir(dir))].  When the registry takes the call, the
    router in the store has that registration appended to its registry
    and is otherwise unchanged, and the router is returned; when it
    refuses, [StaticFS] panics.  The registration holds a path and a file
    system only: serving it is the registry's file server and never a call
    into the request pipeline, so no context, middleware or hook of the
    router takes part. *)
Theorem Static_routes_bypass_pipeline
    (r : ptr) (path dir : string) (fs : http_FileSystem) (s : Store) (rt : Router) :
  s !! r = Some rt ->
  let files := ServeFiles (rootPath rt +:+ path) fs in
  (forall s0, Static r path dir s0 = StaticFS r path (http_Dir dir) s0) /\
  match registry_check (router rt) files with
  | None =>
      exists rt',
        StaticFS r path fs s = (<[r := rt']> s, Ok r) /\
        <[r := rt']> s !! r = Some rt' /\
        router rt' = router rt ++ [files] /\
        middlewares rt' = middlewares rt /\
        same_configuration rt' rt /\
        (forall c config req,
           last (router rt') = Some c ->
           serve c config req = FileServer fs /\
           forall call, serve c config req <> Pipeline call)
  | Some msg => StaticFS r path fs s = (s, Panic (RegistryPanic msg))
  end /\
  (forall config req, serve files config req = FileServer fs) /\
  (forall config req call, serve files config req <> Pipeline call).
Proof.
  intros Hr files.
  split; [reflexivity |].
  split; [| split; [done | discriminate]].
  destruct (registry_check (router rt) files) as [msg |] eqn:Hcheck.
  - rewrite (focus_StaticFS r path fs s rt Hr).
    by apply register_then_return_refused.
  - destruct (register_then_return_accepted r files s rt Hr Hcheck)
      as (rt' & Hrun & Hr' & Hreg & Hmw & Hcfg).
    exists rt'.
    split; [by rewrite (focus_StaticFS r path fs s rt Hr) |].
    split; [exact Hr' |]. split; [exact Hreg |].
    split; [exact Hmw |]. split; [exact Hcfg |].
    intros c config req Hlast.
    rewrite Hreg, last_snoc in Hlast. injection Hlast as <-.
    split; [done | discriminate].
Qed.

Lemma run_op_returns_receiver (op : RegistrationOp) (r : ptr)
    (s s' : Store) (v : ptr) :
  run_op r op s = (s', Ok v) -> v = r.
Proof.
  intros Hrun.
  destruct (s !! r) as [rt |] eqn:Hr.
  - rewrite (focus_run_op r op s rt Hr) in Hrun.
    destruct (op_effect r op rt) as [rt' res] eqn:Hop.
    destruct (op_effect_spec _ _ _ _ _ Hop) as (_ & _ & _ & Hret).
    apply Hret. simpl in Hrun. congruence.
  - rewrite (run_op_dangling r op s Hr) in Hrun. congruence.
Qed.

Lemma run_chain_returns_receiver (ops : list RegistrationOp) (r : ptr)
    (s s' : Store) (v : ptr) :
  run_chain r ops s = (s', Ok v) -> v = r.
Proof.
  revert r s. induction ops as [| op ops IH]; intros r s Hrun; simpl in Hrun.
  - unfold ret in Hrun. congruence.
  - unfold bind in Hrun.
    destruct (run_op r op s) as [s1 [a | e]] eqn:Hop; [| congruence].
    apply run_op_returns_receiver in Hop. subst a.
    by apply (IH r s1).
Qed.

(** C9. Every registration operation (the seven verbs, [Any], [WS],
    [Static], [StaticFS], [Use] and the eight [Easy*] shortcuts) called on
    an allocated router whose registry takes the calls it makes returns,
    and what it returns is the pointer it was called on, the store holding
    the same routers with that one updated in place.  No operation ever
    returns another pointer, so a chain of registrations runs on one
    router from end to end. *)
Theorem registration_returns_its_router
    (op : RegistrationOp) (r : ptr) (s : Store) (rt : Router) :
  s !! r = Some rt ->
  (forall k c, calls_of r rt op !! k = Some c ->
     registry_check (router rt ++ take k (calls_of r rt op)) c = None) ->
  (exists rt', run_op r op s = (<[r := rt']> s, Ok r) /\
               length (<[r := rt']> s) = length s) /\
  (forall s0 s' v, run_op r op s0 = (s', Ok v) -> v = r) /\
  (forall ops s0 s' v, run_chain r ops s0 = (s', Ok v) -> v = r).
Proof.
  intros Hr Hacc. split; [| split].
  - rewrite (focus_run_op r op s rt Hr).
    destruct op; unfold op_effect, register_then_return;
      try (rewrite (register_all_accepted _ rt Hacc);
           eexists; split; [reflexivity | apply length_insert]).
    eexists; split; [reflexivity | apply length_insert].
  - intros s0 s' v. apply run_op_returns_receiver.
  - intros ops s0 s' v. apply run_chain_returns_receiver.
Qed.

(** * Further properties of the registration surface *)

(** ** Chains seen from the store *)

Lemma run_chain_dangling (ops : list RegistrationOp) (r : ptr) (s : Store) :
  s !! r = None -> fst (run_chain r ops s) = s.
Proof.
  intros Hr. destruct ops as [| op ops]; simpl; [done |].
  unfold bind. by rewrite (run_op_dangling r op s Hr).
Qed.

Lemma run_chain_final (ops : list RegistrationOp) (r : ptr) (s : Store) (rt : Router) :
  s !! r = Some rt ->
  exists rt' res,
    chain_effect r ops rt = (rt', res) /\
    run_chain r ops s = (<[r := rt']> s, res) /\
    <[r := rt']> s !! r = Some rt'.
Proof.
  intros Hr.
  destruct (chain_effect r ops rt) as [rt' res] eqn:Hchain.
  exists rt', res. split; [done |]. split.
  - rewrite (focus_run_chain ops r s rt Hr). by rewrite Hchain.
  - apply list_lookup_insert_eq. by eapply lookup_lt_Some.
Qed.

Lemma run_chain_frame (ops : list RegistrationOp) (r r' : ptr) (s : Store) :
  r' <> r -> fst (run_chain r ops s) !! r' = s !! r'.
Proof.
  intros Hne.
  destruct (s !! r) as [rt |] eqn:Hr.
  - destruct (run_chain_final ops r s rt Hr) as (rt' & res & _ & Hrun & _).
    rewrite Hrun; simpl. by apply list_lookup_insert_ne.
  - by rewrite (run_chain_dangling ops r s Hr).
Qed.

Lemma run_chain_length (ops : list RegistrationOp) (r : ptr) (s : Store) :
  length (fst (run_chain r ops s)) = length s.
Proof.
  destruct (s !! r) as [rt |] eqn:Hr.
  - destruct (run_chain_final ops r s rt Hr) as (rt' & res & _ & Hrun & _).
    rewrite Hrun; simpl. apply length_insert.
  - by rewrite (run_chain_dangling ops r s Hr).
Qed.

(** An invariant of every single operation is an invariant of chains. *)
Lemma chain_effect_invariant (P : Router -> Prop) (r : ptr) :
  (forall op rt rt' res, op_effect r op rt = (rt', res) -> P rt -> P rt') ->
  forall ops rt rt' res, chain_effect r ops rt = (rt', res) -> P rt -> P rt'.
Proof.
  intros Hstep ops. induction ops as [| op ops IH]; intros rt rt' res Hchain HP;
    simpl in Hchain.
  - unfold ret in Hchain. congruence.
  - unfold bind in Hchain.
    destruct (op_effect r op rt) as [rt1 [a | e]] eqn:Hop.
    + destruct (op_effect_spec _ _ _ _ _ Hop) as (_ & _ & _ & Hret).
      rewrite (Hret a eq_refl) in Hchain.
      eapply IH; [exact Hchain |]. by eapply Hstep.
    + injection Hchain as <- _. by eapply Hstep.
Qed.

(** X1. A chain of registrations on a router, whether it returns or
    panics, leaves every other router of the store exactly as it was and
    allocates nothing. *)
Theorem registration_touches_only_its_router
    (ops : list RegistrationOp) (r r' : ptr) (s : Store) :
  r' <> r ->
  fst (run_chain r ops s) !! r' = s !! r' /\
  length (fst (run_chain r ops s)) = length s.
Proof.
  intros Hne. split; [by apply run_chain_frame | apply run_chain_length].
Qed.

(** X2. Registration only ever adds.  After any chain of operations on
    an allocated router, returned from or cut short by a panic, the router
    has the root path, multipart ceiling, hooks and banner flag it had,
    its registry is the earlier registry followed by new registrations,
    and its middleware list is the earlier list followed by new handles:
    no route or middleware is removed, replaced or reordered. *)
Theorem registration_only_adds
    (ops : list RegistrationOp) (r : ptr) (s : Store) (rt : Router) :
  s !! r = Some rt ->
  exists rt',
    fst (run_chain r ops s) !! r = Some rt' /\
    same_configuration rt' rt /\
    router rt `prefix_of` router rt' /\
    middlewares rt `prefix_of` middlewares rt'.
Proof.
  intros Hr.
  destruct (run_chain_final ops r s rt Hr) as (rt' & res & Hchain & Hrun & Hr').
  exists rt'. rewrite Hrun; simpl. split; [exact Hr' |].
  apply (chain_effect_invariant
           (fun x => same_configuration x rt /\
                     router rt `prefix_of` router x /\
                     middlewares rt `prefix_of` middlewares x)
           r) with (ops := ops) (rt := rt) (res := res); [| exact Hchain |].
  - intros op rt1 rt2 res' Hop (Hcfg & Hreg & Hmw).
    destruct (op_effect_spec _ _ _ _ _ Hop) as (Hcfg' & (ms & Hms) & (cs & Hcs) & _).
    split; [| split].
    + unfold same_configuration in *.
      destruct Hcfg as (<- & <- & <- & <- & <- & <-). exact Hcfg'.
    + rewrite Hcs. by apply prefix_app_r.
    + rewrite Hms. by apply prefix_app_r.
  - split; [by repeat split |]. split; reflexivity.
Qed.

(** ** Routers built by [New] *)

Lemma New_spec (opts : list RouterOptions) (s : Store) :
  let rt := fold_left apply_options opts initial_router in
  New opts s = (s ++ [rt], Ok (length s)) /\
  (s ++ [rt]) !! length s = Some rt /\
  router rt = [] /\ middlewares rt = [].
Proof.
  intros rt. split; [reflexivity |]. split; [by apply list_lookup_middle |].
  by destruct (fold_apply_options_spec opts initial_router)
    as (_ & _ & _ & _ & _ & _ & H7 & H8).
Qed.

Lemma fold_apply_options_invariant (P : Router -> Prop) :
  (forall rt v, P rt -> P (apply_options rt v)) ->
  forall opts rt, P rt -> P (fold_left apply_options opts rt).
Proof.
  intros Hstep opts. induction opts as [| v opts IH]; intros rt HP; simpl; [done |].
  apply IH. by apply Hstep.
Qed.

Lemma prefix_append (a b : string) : String.prefix a (a +:+ b) = true.
Proof.
  induction a as [| c a IH]; simpl.
  - by destruct b.
  - by destruct (ascii_dec c c).
Qed.

Lemma calls_of_under_root (r : ptr) (rt : Router) (op : RegistrationOp) :
  Forall (fun c => under_root (rootPath rt) c = true) (calls_of r rt op).
Proof.
  destruct op; simpl; repeat constructor; apply prefix_append.
Qed.

Lemma op_effect_router (r : ptr) (op : RegistrationOp)
    (rt rt' : Router) (res : Result ptr) :
  op_effect r op rt = (rt', res) ->
  exists k, router rt' = router rt ++ take k (calls_of r rt op).
Proof.
  intros Hop.
  assert (Hreg : register_then_return r (calls_of r rt op) rt = (rt', res) ->
                 exists k, router rt' = router rt ++ take k (calls_of r rt op)).
  { unfold register_then_return.
    destruct (register_all rt (calls_of r rt op)) as [rt1 o] eqn:Hall.
    destruct (register_all_spec _ _ _ _ Hall) as (_ & _ & k & _ & Hrt & _).
    intros Heq. assert (rt1 = rt') by (destruct o; congruence). subst rt1.
    by exists k. }
  destruct op; try (by apply Hreg).
  unfold op_effect in Hop. injection Hop as <- _.
  exists 0. simpl. by rewrite app_nil_r.
Qed.

(** X3. Nothing escapes the root path.  Whatever options a router is
    built with and whatever chain of operations follows, every path its
    registry holds (plain routes, websocket routes and served
    directories alike) begins with the root path resolved by [New]. *)
Theorem every_registered_path_is_under_the_root
    (opts : list RouterOptions) (ops : list RegistrationOp) (s0 : Store) :
  let r := length s0 in
  let s2 := fst (run_chain r ops (fst (New opts s0))) in
  exists rt2,
    s2 !! r = Some rt2 /\
    rootPath rt2 = resolve "" (map RootPath_set opts) /\
    Forall (fun c => under_root (rootPath rt2) c = true) (router rt2).
Proof.
  intros r s2.
  destruct (New_spec opts s0) as (Hnew & Hr1 & Hreg1 & _).
  set (rt1 := fold_left apply_options opts initial_router) in *.
  destruct (run_chain_final ops r (s0 ++ [rt1]) rt1 Hr1)
    as (rt2 & res & Hchain & Hrun & Hr2).
  exists rt2. unfold s2. rewrite Hnew; simpl. rewrite Hrun; simpl.
  split; [exact Hr2 |].
  assert (Hinv : rootPath rt2 = rootPath rt1 /\
                 Forall (fun c => under_root (rootPath rt1) c = true) (router rt2)).
  { apply (chain_effect_invariant
             (fun x => rootPath x = rootPath rt1 /\
                       Forall (fun c => under_root (rootPath rt1) c = true) (router x))
             r) with (ops := ops) (rt := rt1) (res := res); [| exact Hchain |].
    - intros op rta rtb res' Hop (Hroot & Hall).
      destruct (op_effect_spec _ _ _ _ _ Hop) as ((Hroot' & _) & _).
      destruct (op_effect_router _ _ _ _ _ Hop) as (k & Hk).
      split; [congruence |].
      rewrite Hk. apply Forall_app. split; [exact Hall |].
      apply Forall_take. rewrite <- Hroot. apply calls_of_under_root.
    - split; [done |]. rewrite Hreg1. constructor. }
  destruct Hinv as (Hroot & Hall).
  split.
  - rewrite Hroot.
    by destruct (fold_apply_options_spec opts initial_router) as (H1 & _).
  - by rewrite Hroot.
Qed.

(** X4. A router built by [New] is always fit to serve, whatever the
    options: its multipart ceiling is positive (zero and negative
    requests are ignored) and none of its three hooks is [nil]; if every
    requested ceiling is an [int64], so is the router's.  No chain of
    registrations changes that. *)
Theorem New_router_keeps_positive_ceiling_and_hooks
    (opts : list RouterOptions) (ops : list RegistrationOp) (s0 : Store) :
  let r := length s0 in
  let s2 := fst (run_chain r ops (fst (New opts s0))) in
  exists rt2,
    s2 !! r = Some rt2 /\
    (0 < multipartFormMaxMemory rt2)%Z /\
    hooks_installed rt2 /\
    (Forall (fun o => (MultipartFormMaxMemory o <= max_int64)%Z) opts ->
     (multipartFormMaxMemory rt2 <= max_int64)%Z).
Proof.
  intros r s2.
  destruct (New_spec opts s0) as (Hnew & Hr1 & _ & _).
  set (rt1 := fold_left apply_options opts initial_router) in *.
  destruct (run_chain_final ops r (s0 ++ [rt1]) rt1 Hr1)
    as (rt2 & res & Hchain & Hrun & Hr2).
  exists rt2. unfold s2. rewrite Hnew; simpl. rewrite Hrun; simpl.
  split; [exact Hr2 |].
  assert (Hcfg : same_configuration rt2 rt1).
  { apply (chain_effect_invariant (fun x => same_configuration x rt1) r)
      with (ops := ops) (rt := rt1) (res := res); [| exact Hchain | by repeat split].
    intros op rta rtb res' Hop Hcfg.
    destruct (op_effect_spec _ _ _ _ _ Hop) as (Hcfg' & _).
    unfold same_configuration in *.
    destruct Hcfg as (<- & <- & <- & <- & <- & <-). exact Hcfg'. }
  destruct Hcfg as (_ & Hmax & Herr & Hreq & Hresp & _).
  unfold hooks_installed. rewrite Hmax, Herr, Hreq, Hresp.
  split; [| split].
  - apply (fold_apply_options_invariant
             (fun x => (0 < multipartFormMaxMemory x)%Z)); [| done].
    intros rt v Hpos.
    destruct (apply_options_spec rt v) as (_ & H2 & _). rewrite H2.
    unfold MultipartFormMaxMemory_set.
    destruct (0 <? MultipartFormMaxMemory v)%Z eqn:Hv; simpl; [lia | done].
  - apply (fold_apply_options_invariant hooks_installed).
    + intros rt v (He & Hq & Hp).
      destruct (apply_options_spec rt v) as (_ & _ & H3 & H4 & H5 & _).
      unfold hooks_installed. rewrite H3, H4, H5.
      destruct (ErrorHandle_opt v), (RequestHandle_opt v), (ResponseHandle_opt v);
        simpl; by repeat split.
    + by repeat split.
  - intros Hall. unfold rt1. clear -Hall.
    assert (Hinit : (multipartFormMaxMemory initial_router <= max_int64)%Z)
      by (by vm_compute).
    revert Hinit. generalize initial_router.
    induction Hall as [| v opts Hv Hall IH]; intros rt Hrt; simpl; [done |].
    apply IH.
    destruct (apply_options_spec rt v) as (_ & H2 & _). rewrite H2.
    unfold MultipartFormMaxMemory_set.
    by destruct (0 <? MultipartFormMaxMemory v)%Z.
Qed.

Lemma apply_options_idempotent (rt : Router) (v : RouterOptions) :
  apply_options (apply_options rt v) v = apply_options rt v.
Proof.
  unfold apply_options.
  destruct (negb (String.eqb (RootPath v) "")), (0 <? MultipartFormMaxMemory v)%Z,
    (ErrorHandle_opt v), (RequestHandle_opt v), (ResponseHandle_opt v);
    reflexivity.
Qed.

(** X5. Passing an options value twice in a row is the same as passing
    it once: [New] builds the same router. *)
Theorem New_repeated_options_are_harmless
    (before after : list RouterOptions) (o : RouterOptions) (s : Store) :
  New (before ++ o :: o :: after) s = New (before ++ o :: after) s.
Proof.
  unfold New.
  rewrite !fold_left_app. cbn [fold_left].
  by rewrite apply_options_idempotent.
Qed.

Lemma apply_options_sets_every_field (rt rt' : Router) (o : RouterOptions) :
  sets_every_field o ->
  router rt = router rt' -> middlewares rt = middlewares rt' ->
  apply_options rt o = apply_options rt' o.
Proof.
  intros (Hroot & Hmax & [fe He] & [fq Hq] & [fp Hp]) Hreg Hmw.
  unfold apply_options.
  apply String.eqb_neq in Hroot. apply Z.ltb_lt in Hmax.
  rewrite Hroot, Hmax, He, Hq, Hp. simpl.
  unfold set_closeConsolePrint, set_responseHandle, set_requestHandle,
    set_errorHandle, set_multipartFormMaxMemory, set_rootPath; simpl.
  by rewrite Hreg, Hmw.
Qed.

(** X6. An options value that sets every guarded field (non-empty root
    path, positive ceiling, three non-nil hooks) makes everything passed
    before it irrelevant: [New] builds the router it would build from that
    value and its successors alone. *)
Theorem New_complete_options_erase_earlier_ones
    (before after : list RouterOptions) (o : RouterOptions) (s : Store) :
  sets_every_field o ->
  New (before ++ o :: after) s = New (o :: after) s.
Proof.
  intros Hfull. unfold New.
  rewrite fold_left_app. cbn [fold_left].
  rewrite (apply_options_sets_every_field
             (fold_left apply_options before initial_router) initial_router o);
    [done | exact Hfull | |].
  - by destruct (fold_apply_options_spec before initial_router)
      as (_ & _ & _ & _ & _ & _ & H7 & _).
  - by destruct (fold_apply_options_spec before initial_router)
      as (_ & _ & _ & _ & _ & _ & _ & H8).
Qed.

(** ** Middlewares and routes in either order *)

Lemma calls_of_plain (r : ptr) (rt rt' : Router) (op : RegistrationOp) :
  plain_registration op = true -> rootPath rt = rootPath rt' ->
  calls_of r rt op = calls_of r rt' op.
Proof.
  intros Hplain Hroot.
  destruct op; try discriminate Hplain; simpl; by rewrite Hroot.
Qed.

Lemma op_effect_accepted (r : ptr) (op : RegistrationOp) (rt : Router) :
  plain_registration op = true ->
  (forall k c, calls_of r rt op !! k = Some c ->
     registry_check (router rt ++ take k (calls_of r rt op)) c = None) ->
  op_effect r op rt = (set_router (router rt ++ calls_of r rt op) rt, Ok r).
Proof.
  intros Hplain Hacc.
  destruct op; try discriminate Hplain;
    unfold op_effect, register_then_return;
    by rewrite (register_all_accepted _ rt Hacc).
Qed.

(** X7. Middlewares and routes may be registered in either order.  For
    a verb registration, [Any], [WS], [Static] or [StaticFS] that the
    registry accepts, calling [Use] before it or after it leaves the
    router in the same state; a route registered before the [Use] call
    reads, at request time, a middleware list that includes the handles
    added after it. *)
Theorem Use_commutes_with_registration
    (op : RegistrationOp) (ms : list Handle) (r : ptr) (s : Store) (rt : Router) :
  s !! r = Some rt ->
  plain_registration op = true ->
  (forall k c, calls_of r rt op !! k = Some c ->
     registry_check (router rt ++ take k (calls_of r rt op)) c = None) ->
  let rt' := set_middlewares (middlewares rt ++ ms)
               (set_router (router rt ++ calls_of r rt op) rt) in
  run_chain r [op_Use ms; op] s = (<[r := rt']> s, Ok r) /\
  run_chain r [op; op_Use ms] s = (<[r := rt']> s, Ok r) /\
  (forall c config req call,
     In c (calls_of r rt op) -> serve c config req = Pipeline call ->
     request_middlewares (<[r := rt']> s) call = Some (middlewares rt ++ ms)).
Proof.
  intros Hr Hplain Hacc rt'.
  split; [| split].
  - rewrite (focus_run_chain _ r s rt Hr).
    cbn [chain_effect]. unfold bind.
    change (op_effect r (op_Use ms) rt)
      with (set_middlewares (middlewares rt ++ ms) rt, Ok r).
    cbv beta iota.
    set (rt1 := set_middlewares (middlewares rt ++ ms) rt).
    assert (Hcalls : calls_of r rt1 op = calls_of r rt op)
      by (by apply calls_of_plain).
    rewrite (op_effect_accepted r op rt1 Hplain); [by rewrite Hcalls |].
    rewrite Hcalls. exact Hacc.
  - rewrite (focus_run_chain _ r s rt Hr).
    cbn [chain_effect]. unfold bind.
    by rewrite (op_effect_accepted r op rt Hplain Hacc).
  - intros c config req call Hin Hserve.
    assert (Hrecv : receiver call = r).
    { eapply serve_Pipeline_receiver; [| exact Hserve].
      pose proof (calls_of_registered_on r rt op) as Hall.
      rewrite Forall_forall in Hall. apply Hall. by apply list_elem_of_In. }
    unfold request_middlewares. rewrite Hrecv.
    rewrite list_lookup_insert_eq; [done |]. by eapply lookup_lt_Some.
Qed.

(** ** Two routers *)

(** X8. Routers built by [New] share nothing.  [New] returns a pointer
    that was not allocated before, to a router with an empty registry and
    no middleware, and leaves the routers already in the store alone; a
    chain of registrations on one of two routers built one after the
    other leaves the other one exactly as it was. *)
Theorem routers_built_by_New_are_independent
    (opts1 opts2 : list RouterOptions) (ops1 ops2 : list RegistrationOp)
    (s0 : Store) :
  let r1 := length s0 in
  let s1 := fst (New opts1 s0) in
  let r2 := length s1 in
  let s2 := fst (New opts2 s1) in
  let s3 := fst (run_chain r1 ops1 s2) in
  let s4 := fst (run_chain r2 ops2 s3) in
  snd (New opts1 s0) = Ok r1 /\ snd (New opts2 s1) = Ok r2 /\
  s0 !! r1 = None /\ s1 !! r2 = None /\ r1 <> r2 /\
  router <$> (s2 !! r2) = Some [] /\
  middlewares <$> (s2 !! r2) = Some [] /\
  s3 !! r2 = s2 !! r2 /\
  s4 !! r1 = s3 !! r1 /\
  (forall r rt, s0 !! r = Some rt -> s4 !! r = Some rt).
Proof.
  intros r1 s1 r2 s2 s3 s4.
  destruct (New_spec opts1 s0) as (Hnew1 & Hr1 & _ & _).
  destruct (New_spec opts2 s1) as (Hnew2 & Hr2 & Hreg2 & Hmw2).
  set (rt1 := fold_left apply_options opts1 initial_router) in *.
  set (rt2 := fold_left apply_options opts2 initial_router) in *.
  assert (Hs1 : s1 = s0 ++ [rt1]) by reflexivity.
  assert (Hs2 : s2 = s1 ++ [rt2]) by reflexivity.
  assert (Hlen : r2 = S r1).
  { unfold r2. rewrite Hs1, length_app. simpl. unfold r1. lia. }
  assert (Hne : r1 <> r2) by lia.
  split; [reflexivity |]. split; [reflexivity |].
  split; [by apply lookup_ge_None_2 |].
  split; [by apply lookup_ge_None_2 |].
  split; [exact Hne |].
  fold r2 in Hr2. rewrite <- Hs2 in Hr2.
  split; [by rewrite Hr2; simpl; rewrite Hreg2 |].
  split; [by rewrite Hr2; simpl; rewrite Hmw2 |].
  split; [apply run_chain_frame; lia |].
  split; [apply run_chain_frame; lia |].
  intros r rt Hr.
  assert (Hlt : r < r1) by (by eapply lookup_lt_Some).
  unfold s4, s3. rewrite !run_chain_frame by lia.
  rewrite Hs2, lookup_app_l by (rewrite Hs1, length_app; simpl; fold r1; lia).
  rewrite Hs1, lookup_app_l by (fold r1; lia).
  exact Hr.
Qed.

End EasierWeb.

(** * Worked instances

    Function values are named by strings; the only file systems are
    directories; a request is a pair of whether it is a well-formed
    websocket upgrade and of its origin. *)

(** C1 at the specification's example: a router built with root path
    "/api/v1", then [GET("/ping", pong)]. *)
Lemma verb_registration_witness :
  let rt : @Router string string string string unit :=
    {| rootPath := "/api/v1"; multipartFormMaxMemory := 33554432;
       router := []; middlewares := [];
       errorHandle := Some "defaultErrorHandle";
       requestHandle := Some "defaultRequestHandle";
       responseHandle := Some "defaultResponseHandle";
       closeConsolePrint := false |} in
  let reg := [Route MethodGet "/api/v1/ping" (handleFunc 0 "pong")] in
  New "defaultErrorHandle" "defaultRequestHandle" "defaultResponseHandle"
    [{| RootPath := "/api/v1"; MultipartFormMaxMemory := 0;
        ErrorHandle_opt := None; RequestHandle_opt := None;
        ResponseHandle_opt := None; CloseConsolePrint := false |}] []
  = ([rt], Ok 0) /\
  exists rt2,
    GET accept_all 0 "/ping" "pong" [rt] = ([rt2], Ok 0) /\
    router rt2 = reg /\
    static_registry (router rt2) = true /\
    static_lookup (router rt2) MethodGet "/api/v1/ping" = Some (handleFunc 0 "pong") /\
    static_lookup (router rt2) MethodGet "/ping" = None.
Proof.
  intros rt reg.
  destruct (verb_registration_keyed_by_prefixed_path
              (Config := unit) (Request := bool * string) (Err := string)
              accept_all (fun req => if fst req then None else Some 400)
              MethodGet 0 "/ping" "pong" [rt] rt eq_refl eq_refl)
    as (rt2 & Hop & _ & Hreg & _ & _ & Hlookup & _).
  split; [reflexivity |].
  exists rt2.
  assert (Hstatic : static_registry (router rt2) = true)
    by (rewrite Hreg; reflexivity).
  destruct (Hlookup Hstatic) as (Hat & _ & Hbare).
  split; [exact Hop |]. split; [exact Hreg |]. split; [exact Hstatic |].
  split; [exact (Hat eq_refl) |].
  exact (Hbare ltac:(discriminate)).
Defined.

(** C2 on a registry that panics on duplicates: a first [Any] adds the
    seven routes, a second one is stopped by the registry at its first
    call; a registry that takes everything gets the seven routes twice. *)
Lemma Any_witness :
  let rt : @Router string string string string unit :=
    {| rootPath := ""; multipartFormMaxMemory := 33554432;
       router := []; middlewares := [];
       errorHandle := Some "defaultErrorHandle";
       requestHandle := Some "defaultRequestHandle";
       responseHandle := Some "defaultResponseHandle";
       closeConsolePrint := false |} in
  let entries := map (fun v => Route v "/users" (handleFunc 0 "users")) all_verbs in
  Any reject_duplicates 0 "/users" "users" [rt] = ([set_router entries rt], Ok 0) /\
  Any reject_duplicates 0 "/users" "users" [set_router entries rt] =
    ([set_router entries rt],
     Panic (RegistryPanic "a handle is already registered for this path")) /\
  Any accept_all 0 "/users" "users" [set_router entries rt] =
    ([set_router (entries ++ entries) rt], Ok 0).
Proof.
  intros rt entries.
  destruct (Any_registers_under_each_verb
              reject_duplicates 0 "/users" "users" [rt] rt eq_refl)
    as (_ & _ & _ & Hfresh & _).
  destruct (Any_registers_under_each_verb
              reject_duplicates 0 "/users" "users"
              [set_router entries rt] (set_router entries rt) eq_refl)
    as (_ & _ & _ & _ & Hdup).
  destruct (Any_registers_under_each_verb
              accept_all 0 "/users" "users"
              [set_router entries rt] (set_router entries rt) eq_refl)
    as (_ & _ & _ & Hall & _).
  split; [| split].
  - apply Hfresh. intros k c Hk.
    do 7 (destruct k as [| k]; [injection Hk as <-; reflexivity |]).
    discriminate.
  - apply (Hdup 0 (Route MethodGet "/users" (handleFunc 0 "users"))).
    + reflexivity.
    + intros j d Hj. lia.
    + reflexivity.
  - apply Hall. reflexivity.
Defined.

(** C3 on two [Use] calls. *)
Lemma Use_witness :
  let rt : @Router string string string string unit :=
    {| rootPath := ""; multipartFormMaxMemory := 33554432;
       router := []; middlewares := ["recover"];
       errorHandle := Some "defaultErrorHandle";
       requestHandle := Some "defaultRequestHandle";
       responseHandle := Some "defaultResponseHandle";
       closeConsolePrint := false |} in
  let after := set_middlewares ["recover"; "auth"; "log"; "cors"] rt in
  Use_chain 0 [["auth"; "log"]; ["cors"]] [rt] = ([after], Ok 0) /\
  request_middlewares [after]
    {| receiver := 0; route_handle := "pong"; over_socket := false |} =
  Some ["recover"; "auth"; "log"; "cors"].
Proof.
  intros rt after.
  destruct (Use_appends_in_registration_order
              0 [["auth"; "log"]; ["cors"]] [rt] rt eq_refl)
    as (_ & Hchain & Hread).
  split; [exact Hchain |].
  exact (Hread {| receiver := 0; route_handle := "pong"; over_socket := false |}
           eq_refl).
Defined.


(** C6, as amended, on the same registration. *)
Lemma WS_handshake_witness :
  let rt : @Router string string string string unit :=
    {| rootPath := "/api/v1"; multipartFormMaxMemory := 33554432;
       router := []; middlewares := [];
       errorHandle := Some "defaultErrorHandle";
       requestHandle := Some "defaultRequestHandle";
       responseHandle := Some "defaultResponseHandle";
       closeConsolePrint := false |} in
  let read := fun req : bool * string => if fst req then None else Some 400 in
  let route := Route MethodGet "/api/v1/chat" (websocketFunc 0 "chat") in
  WS accept_all 0 "/chat" "chat" [rt] = ([set_router [route] rt], Ok 0) /\
  forall (config : unit) (req : bool * string),
    handshake_decision (FS := unit) (Err := string) read
      (websocketFunc 0 "chat") config req = None.
Proof.
  intros rt read route.
  destruct (WS_handshake_is_fixed
              (Config := unit) (Err := string)
              accept_all read 0 "/chat" "chat" [rt] [set_router [route] rt]
              (set_router [route] rt) MethodGet "/api/v1/chat"
              (websocketFunc 0 "chat") eq_refl eq_refl eq_refl)
    as (_ & _ & Hdecision & _).
  split; [reflexivity | exact Hdecision].
Defined.

(** C6 as stated fails: no [WS] registration, on any registry and
    whatever the library takes for a well-formed upgrade, installs a
    handshake that refuses. *)
Lemma WS_handshake_not_configurable :
  ~ exists check read,
      @WS_handshake_configurable string string string string unit
        unit (bool * string) string check read.
Proof.
  intros (check & read & Hconf).
  destruct (Hconf (fun _ _ => Some "origin not allowed"))
    as (r & path & handle & s & s' & rt' & verb & p & f
        & Hws & Hr' & Hlast & Hdec).
  destruct (WS_last_route _ _ _ _ _ _ _ _ Hws Hr') as (rt & _ & Hroute).
  rewrite Hroute in Hlast. injection Hlast as _ _ <-.
  specialize (Hdec tt (true, "https://elsewhere.example")).
  unfold handshake_decision in Hdec; simpl in Hdec.
  unfold websocket_ServeHTTP in Hdec; simpl in Hdec.
  destruct (read (true, "https://elsewhere.example")); discriminate.
Qed.

(** C8 on a directory served under the root path. *)
Lemma Static_witness :
  let rt : @Router string string string string unit :=
    {| rootPath := "/api/v1"; multipartFormMaxMemory := 33554432;
       router := []; middlewares := ["auth"];
       errorHandle := Some "defaultErrorHandle";
       requestHandle := Some "defaultRequestHandle";
       responseHandle := Some "defaultResponseHandle";
       closeConsolePrint := false |} in
  let read := fun req : bool * string => if fst req then None else Some 400 in
  let files := ServeFiles "/api/v1/assets/*filepath" (http_Dir "./public") in
  exists rt2,
    Static accept_all 0 "/assets/*filepath" "./public" [rt] = ([rt2], Ok 0) /\
    router rt2 = [files] /\
    middlewares rt2 = ["auth"] /\
    forall c, last (router rt2) = Some c ->
      serve (Config := unit) (Err := string) read c tt
        (true, "https://elsewhere.example") = FileServer (http_Dir "./public").
Proof.
  intros rt read files.
  destruct (Static_routes_bypass_pipeline
              (Config := unit) (Err := string)
              accept_all read 0 "/assets/*filepath" "./public"
              (http_Dir "./public") [rt] rt eq_refl)
    as (Hstatic & Hfs & _ & _).
  destruct Hfs as (rt2 & Hrun & _ & Hreg & Hmw & _ & Hserve).
  exists rt2.
  split; [rewrite Hstatic; exact Hrun |].
  split; [exact Hreg |]. split; [exact Hmw |].
  intros c Hlast.
  exact (proj1 (Hserve c tt (true, "https://elsewhere.example") Hlast)).
Defined.

(** C9 on [EasyAny] with per-route options. *)
Lemma registration_returns_witness :
  let rt : @Router string string string string unit :=
    {| rootPath := "/api/v1"; multipartFormMaxMemory := 33554432;
       router := []; middlewares := [];
       errorHandle := Some "defaultErrorHandle";
       requestHandle := Some "defaultRequestHandle";
       responseHandle := Some "defaultResponseHandle";
       closeConsolePrint := false |} in
  let build := fun (_ : nat) (_ : @Router string string string string unit)
                   (easyHandle : string) (_ : list (@PluginOptions string string)) =>
                 easyHandle in
  let op := op_EasyAny "/orders" "listOrders"
              [{| plugin_RequestHandle := Some "bindJSON";
                  plugin_ResponseHandle := None |}] in
  exists rt', run_op build accept_all 0 op [rt] = ([rt'], Ok 0).
Proof.
  intros rt build op.
  destruct (registration_returns_its_router build accept_all op 0 [rt] rt eq_refl
              (fun _ _ _ => eq_refl))
    as ((rt' & Hrun & _) & _).
  exists rt'. exact Hrun.
Defined.

(** X1 on a store of two routers: a chain on the first leaves the second
    as it was. *)
Lemma registration_frame_witness :
  let rtA : @Router string string string string unit :=
    {| rootPath := "/a"; multipartFormMaxMemory := 33554432;
       router := []; middlewares := [];
       errorHandle := Some "defaultErrorHandle";
       requestHandle := Some "defaultRequestHandle";
       responseHandle := Some "defaultResponseHandle";
       closeConsolePrint := false |} in
  let rtB := set_middlewares ["audit"] (set_rootPath "/b" rtA) in
  let build := fun (_ : nat) (_ : @Router string string string string unit)
                   (easyHandle : string) (_ : list (@PluginOptions string string)) =>
                 easyHandle in
  let ops := [op_verb MethodGet "/ping" "pong"; op_Use ["auth"];
              op_Easy MethodPost "/orders" "createOrder" []] in
  fst (run_chain build accept_all 0 ops [rtA; rtB]) !! 1 = Some rtB /\
  length (fst (run_chain build accept_all 0 ops [rtA; rtB])) = 2.
Proof.
  intros rtA rtB build ops.
  exact (registration_touches_only_its_router build accept_all ops 0 1 [rtA; rtB]
           ltac:(discriminate)).
Defined.

(** X2 on a chain cut short by a registry that refuses the duplicate. *)
Lemma registration_only_adds_witness :
  let rt : @Router string string string string unit :=
    {| rootPath := "/api/v1"; multipartFormMaxMemory := 33554432;
       router := [Route MethodGet "/api/v1/health" (handleFunc 0 "health")];
       middlewares := ["recover"];
       errorHandle := Some "defaultErrorHandle";
       requestHandle := Some "defaultRequestHandle";
       responseHandle := Some "defaultResponseHandle";
       closeConsolePrint := true |} in
  let build := fun (_ : nat) (_ : @Router string string string string unit)
                   (easyHandle : string) (_ : list (@PluginOptions string string)) =>
                 easyHandle in
  let ops := [op_Use ["auth"]; op_verb MethodGet "/ping" "pong";
              op_verb MethodGet "/ping" "again"; op_Use ["late"]] in
  exists rt',
    fst (run_chain build reject_duplicates 0 ops [rt]) !! 0 = Some rt' /\
    same_configuration rt' rt /\
    router rt `prefix_of` router rt' /\
    middlewares rt `prefix_of` middlewares rt'.
Proof.
  intros rt build ops.
  exact (registration_only_adds build reject_duplicates ops 0 [rt] rt eq_refl).
Defined.

(** X6 on an earlier value overridden in full. *)
Lemma New_complete_options_witness :
  let earlier : @RouterOptions string string string :=
    {| RootPath := "/old"; MultipartFormMaxMemory := 1024;
       ErrorHandle_opt := Some "oldErrors"; RequestHandle_opt := None;
       ResponseHandle_opt := None; CloseConsolePrint := true |} in
  let complete : @RouterOptions string string string :=
    {| RootPath := "/api/v1"; MultipartFormMaxMemory := 8388608;
       ErrorHandle_opt := Some "reportError"; RequestHandle_opt := Some "bindJSON";
       ResponseHandle_opt := Some "writeJSON"; CloseConsolePrint := false |} in
  New (Handle := string) (FS := unit)
      "defaultErrorHandle" "defaultRequestHandle" "defaultResponseHandle"
      ([earlier] ++ [complete]) [] =
  New "defaultErrorHandle" "defaultRequestHandle" "defaultResponseHandle"
      [complete] [].
Proof.
  intros earlier complete.
  apply (New_complete_options_erase_earlier_ones
           "defaultErrorHandle" "defaultRequestHandle" "defaultResponseHandle"
           [earlier] [] complete []).
  split; [discriminate |]. split; [reflexivity |].
  split; [by eexists |]. split; by eexists.
Defined.

(** X7 on [Any] and one middleware. *)
Lemma Use_commutes_witness :
  let rt : @Router string string string string unit :=
    {| rootPath := "/api/v1"; multipartFormMaxMemory := 33554432;
       router := []; middlewares := ["recover"];
       errorHandle := Some "defaultErrorHandle";
       requestHandle := Some "defaultRequestHandle";
       responseHandle := Some "defaultResponseHandle";
       closeConsolePrint := false |} in
  let build := fun (_ : nat) (_ : @Router string string string string unit)
                   (easyHandle : string) (_ : list (@PluginOptions string string)) =>
                 easyHandle in
  run_chain build accept_all 0 [op_Use ["auth"]; op_Any "/users" "users"] [rt] =
  run_chain build accept_all 0 [op_Any "/users" "users"; op_Use ["auth"]] [rt].
Proof.
  intros rt build.
  destruct (Use_commutes_with_registration
              (Config := unit) (Request := bool * string) (Err := string)
              build accept_all (fun req => if fst req then None else Some 400)
              (op_Any "/users" "users") ["auth"] 0 [rt] rt
              eq_refl eq_refl (fun _ _ _ => eq_refl))
    as (Hbefore & Hafter & _).
  exact (eq_trans Hbefore (eq_sym Hafter)).
Defined.
